(** * RPMDIntegrator: binding protocol and orchestration

    A shallow embedding of [plugins/rpmd/openmmapi/src/RPMDIntegrator.cpp].

    The integrator owns no numerics: every operation forwards to the kernel
    that the context's Platform manufactured, or to the context itself.  The
    kernel ([IntegrateRPMDStepKernel]), [ContextImpl], [Platform] and [System]
    are interfaces whose implementations live in the backends, so they enter
    the development as a type class; the integrator is written once, over any
    instance, as the C++ is.

    C++ exceptions do not roll back what was written before the throw, so
    computations are functions [World -> outcome A * World]: the world that
    comes back with a [Throw] is the world at the throw. *)

From Stdlib Require Import ZArith Floats String.
From stdpp Require Import gmap strings list.
From Equations Require Import Equations.

#[local] Set Warnings "-inexact-float".
#[local] Open Scope Z_scope.

(** ** Scalars and vectors *)

(** An object address.  [NULL] and uninitialised pointers are [None] of
    [option addr]. *)
Definition addr := N.

(** [Vec3]: three doubles. *)
Record Vec3 := mkVec3 { vec_x : float; vec_y : float; vec_z : float }.

(** The conversion [(int) v] of a wider integer to a 32-bit [int]. *)
Definition to_int (v : Z) : Z := (v + 2 ^ 31) mod 2 ^ 32 - 2 ^ 31.

(** ** Exceptions and outcomes *)

Inductive exn :=
| OpenMMException (what : string)
| bad_cast.

(** [Undefined] stands for behaviour the C++ standard leaves undefined: a call
    through a null, uninitialised or dangling pointer. *)
Inductive outcome (A : Type) :=
| Ret (a : A)
| Throw (e : exn)
| Undefined.
Arguments Ret {A} a.
Arguments Throw {A} e.
Arguments Undefined {A}.

(** ** The backend interface *)

Class BackendTypes := {
  System : Type;
  Platform : Type;
  (** what a [ContextImpl] holds besides its fixed references: time,
      positions, velocities, forces, parameters *)
  ContextData : Type;
  (** the data of an implementation of [IntegrateRPMDStepKernel] *)
  RPMDKernelData : Type;
  (** the data of a [KernelImpl] of any other class *)
  OtherKernelData : Type;
  State : Type;
}.

Section Objects.
Context `{BackendTypes}.

(** [ContextImpl]: the references fixed at construction, read by [getOwner],
    [getPlatform] and [getSystem], and the live data. *)
Record ContextImpl := mkContextImpl {
  getOwner : addr;
  getPlatform : Platform;
  getSystem : System;
  getData : ContextData;
}.

Definition setData (c : ContextImpl) (d : ContextData) : ContextImpl :=
  {| getOwner := getOwner c; getPlatform := getPlatform c;
     getSystem := getSystem c; getData := d |}.

(** What [Kernel::getImpl] refers to; [dynamic_cast] tells the two apart. *)
Inductive KernelImpl :=
| IntegrateRPMDStepKernel (k : RPMDKernelData)
| OtherKernelImpl (k : OtherKernelData).

(** The fields of an [RPMDIntegrator].  [kernel] is a default-constructed
    [Kernel] (no implementation) until [initialize] assigns it; [context] is
    not initialised by the constructor, which [None] stands for. *)
Record RPMDIntegrator := mkRPMDIntegrator {
  owner : option addr;
  context : option addr;
  kernel : option KernelImpl;
  numCopies : Z;
  temperature : float;
  friction : float;
  stepSize : float;
  constraintTolerance : float;
  randomNumberSeed : Z;
}.

(** What a kernel can read of the integrator it is handed as [*this]: the
    public getters. *)
Record IntegratorView := mkIntegratorView {
  getNumCopies : Z;
  getTemperature : float;
  getFriction : float;
  getStepSize : float;
  getConstraintTolerance : float;
  getRandomNumberSeed : Z;
}.

Definition view (i : RPMDIntegrator) : IntegratorView :=
  {| getNumCopies := numCopies i; getTemperature := temperature i;
     getFriction := friction i; getStepSize := stepSize i;
     getConstraintTolerance := constraintTolerance i;
     getRandomNumberSeed := randomNumberSeed i |}.

(** The calls the integrator makes on its collaborators, in order. *)
Inductive Event :=
| Call_createKernel (name : string) (ctx : addr)
| Call_kernel_initialize
| Call_kernel_setPositions (copy : Z) (positions : list Vec3)
| Call_kernel_setVelocities (copy : Z) (velocities : list Vec3)
| Call_kernel_copyToContext (copy : Z) (ctx : addr)
| Call_Context_getState (ctx : addr) (types : Z)
| Call_updateContextState (ctx : addr)
| Call_calcForcesAndEnergy (ctx : addr) (includeForces includeEnergy : bool)
| Call_kernel_execute (ctx : addr).

(** The live [ContextImpl] objects, the integrator, and the log of calls. *)
Record World := mkWorld {
  heap : gmap addr ContextImpl;
  integrator : RPMDIntegrator;
  calls : list Event;
}.

End Objects.

(** The collaborators.  Each may throw, and what it wrote before throwing
    stays written.  A kernel is handed the integrator by const reference and
    no collaborator calls back into the integrator; [copyToContext] is
    called through a const reference to the kernel and [Context::getState]
    is a const member, so neither returns new data for the object it is
    called on. *)
Class Backend `{BackendTypes} := {
  IntegrateRPMDStepKernel_Name : string;
  Platform_createKernel :
    Platform -> string -> ContextImpl -> outcome KernelImpl * ContextData;
  Kernel_initialize :
    RPMDKernelData -> System -> IntegratorView -> outcome unit * RPMDKernelData;
  Kernel_execute :
    RPMDKernelData -> ContextImpl -> IntegratorView ->
    outcome unit * (RPMDKernelData * ContextData);
  Kernel_setPositions :
    RPMDKernelData -> Z -> list Vec3 -> outcome unit * RPMDKernelData;
  Kernel_setVelocities :
    RPMDKernelData -> Z -> list Vec3 -> outcome unit * RPMDKernelData;
  Kernel_copyToContext :
    RPMDKernelData -> Z -> ContextImpl -> outcome unit * ContextData;
  ContextImpl_updateContextState : ContextImpl -> outcome unit * ContextData;
  ContextImpl_calcForcesAndEnergy :
    ContextImpl -> bool -> bool -> outcome unit * ContextData;
  Context_getState : ContextImpl -> Z -> outcome State;
}.

(** ** Computations *)

Section Computations.
Context `{Backend}.

Definition M (A : Type) : Type := World -> outcome A * World.

Definition ret {A} (a : A) : M A := fun w => (Ret a, w).

Definition bind {A B} (m : M A) (f : A -> M B) : M B :=
  fun w =>
    match m w with
    | (Ret a, w') => f a w'
    | (Throw e, w') => (Throw e, w')
    | (Undefined, w') => (Undefined, w')
    end.

Definition throw {A} (e : exn) : M A := fun w => (Throw e, w).

Definition this : M RPMDIntegrator := fun w => (Ret (integrator w), w).

Definition assign (f : RPMDIntegrator -> RPMDIntegrator) : M unit :=
  fun w => (Ret tt, {| heap := heap w; integrator := f (integrator w);
                       calls := calls w |}).

Definition log (e : Event) : M unit :=
  fun w => (Ret tt, {| heap := heap w; integrator := integrator w;
                       calls := calls w ++ [e] |}).

End Computations.

Notation "x <- c1 ;; c2" := (bind c1 (fun x => c2))
  (at level 100, c1 at next level, right associativity).
Notation "c1 ;; c2" := (bind c1 (fun _ => c2))
  (at level 100, right associativity).

(** ** The integrator *)

Section Integrator.
Context `{Backend}.

(** *** Parameters *)

(** Modelled from the spec: [setTemperature] is declared in RPMDIntegrator.h,
    which is absent; a parameter holds the value last given to its setter. *)
Definition setTemperature (temp : float) (i : RPMDIntegrator) : RPMDIntegrator :=
  {| owner := owner i; context := context i; kernel := kernel i;
     numCopies := numCopies i; temperature := temp; friction := friction i;
     stepSize := stepSize i; constraintTolerance := constraintTolerance i;
     randomNumberSeed := randomNumberSeed i |}.

(** Modelled from the spec: [setFriction] is declared in RPMDIntegrator.h,
    which is absent; a parameter holds the value last given to its setter. *)
Definition setFriction (coeff : float) (i : RPMDIntegrator) : RPMDIntegrator :=
  {| owner := owner i; context := context i; kernel := kernel i;
     numCopies := numCopies i; temperature := temperature i; friction := coeff;
     stepSize := stepSize i; constraintTolerance := constraintTolerance i;
     randomNumberSeed := randomNumberSeed i |}.

(** Modelled from the spec: [setStepSize] is declared in Integrator.h, which
    is absent; a parameter holds the value last given to its setter. *)
Definition setStepSize (size : float) (i : RPMDIntegrator) : RPMDIntegrator :=
  {| owner := owner i; context := context i; kernel := kernel i;
     numCopies := numCopies i; temperature := temperature i;
     friction := friction i; stepSize := size;
     constraintTolerance := constraintTolerance i;
     randomNumberSeed := randomNumberSeed i |}.

(** Modelled from the spec: [setConstraintTolerance] is declared in
    Integrator.h, which is absent; a parameter holds the value last given to
    its setter. *)
Definition setConstraintTolerance (tol : float) (i : RPMDIntegrator)
  : RPMDIntegrator :=
  {| owner := owner i; context := context i; kernel := kernel i;
     numCopies := numCopies i; temperature := temperature i;
     friction := friction i; stepSize := stepSize i;
     constraintTolerance := tol; randomNumberSeed := randomNumberSeed i |}.

(** Modelled from the spec: [setRandomNumberSeed] is declared in
    RPMDIntegrator.h, which is absent; a parameter holds the value last given
    to its setter. *)
Definition setRandomNumberSeed (seed : Z) (i : RPMDIntegrator) : RPMDIntegrator :=
  {| owner := owner i; context := context i; kernel := kernel i;
     numCopies := numCopies i; temperature := temperature i;
     friction := friction i; stepSize := stepSize i;
     constraintTolerance := constraintTolerance i; randomNumberSeed := seed |}.

(** Assignments to the three private members [initialize] writes. *)
Definition set_context (p : option addr) (i : RPMDIntegrator) : RPMDIntegrator :=
  {| owner := owner i; context := p; kernel := kernel i;
     numCopies := numCopies i; temperature := temperature i;
     friction := friction i; stepSize := stepSize i;
     constraintTolerance := constraintTolerance i;
     randomNumberSeed := randomNumberSeed i |}.

Definition set_owner (p : option addr) (i : RPMDIntegrator) : RPMDIntegrator :=
  {| owner := p; context := context i; kernel := kernel i;
     numCopies := numCopies i; temperature := temperature i;
     friction := friction i; stepSize := stepSize i;
     constraintTolerance := constraintTolerance i;
     randomNumberSeed := randomNumberSeed i |}.

Definition set_kernel (k : option KernelImpl) (i : RPMDIntegrator)
  : RPMDIntegrator :=
  {| owner := owner i; context := context i; kernel := k;
     numCopies := numCopies i; temperature := temperature i;
     friction := friction i; stepSize := stepSize i;
     constraintTolerance := constraintTolerance i;
     randomNumberSeed := randomNumberSeed i |}.

(** The constructor.  [clock] is what [time(NULL)] returns.  The initialiser
    list sets [owner] and [numCopies]; the body goes through the setters. *)
Definition RPMDIntegrator_new (clock : Z) (numCopies : Z)
    (temperature frictionCoeff stepSize : float) : RPMDIntegrator :=
  let i := {| owner := None; context := None; kernel := None;
              numCopies := numCopies; temperature := 0; friction := 0;
              stepSize := 0; constraintTolerance := 0;
              randomNumberSeed := 0 |} in
  let i := setTemperature temperature i in
  let i := setFriction frictionCoeff i in
  let i := setStepSize stepSize i in
  let i := setConstraintTolerance 1e-4 i in
  setRandomNumberSeed (to_int clock) i.

(** *** Reaching the collaborators *)

(** [*p] for a [ContextImpl* p]: the object must be live. *)
Definition deref (p : option addr) : M (addr * ContextImpl) :=
  fun w =>
    match p with
    | Some a =>
        match heap w !! a with
        | Some c => (Ret (a, c), w)
        | None => (Undefined, w)
        end
    | None => (Undefined, w)
    end.

(** A call on the [ContextImpl] that [p] points to: logged, run, and the
    data it leaves written back, also when it throws. *)
Definition on_context {A} (p : option addr) (e : addr -> Event)
    (f : ContextImpl -> outcome A * ContextData) : M A :=
  ac <- deref p ;;
  log (e ac.1) ;;
  fun w =>
    let (r, d) := f ac.2 in
    (r, {| heap := <[ac.1 := setData ac.2 d]> (heap w);
           integrator := integrator w; calls := calls w |}).

(** [dynamic_cast<IntegrateRPMDStepKernel&>(kernel.getImpl())]. *)
Definition cast_kernel : M RPMDKernelData :=
  fun w =>
    match kernel (integrator w) with
    | Some (IntegrateRPMDStepKernel k) => (Ret k, w)
    | Some (OtherKernelImpl _) => (Throw bad_cast, w)
    | None => (Undefined, w)
    end.

(** A call on the kernel that may write the kernel's data. *)
Definition on_kernel (e : Event)
    (f : RPMDKernelData -> outcome unit * RPMDKernelData) : M unit :=
  k <- cast_kernel ;;
  log e ;;
  fun w =>
    let (r, k') := f k in
    (r, {| heap := heap w;
           integrator := set_kernel (Some (IntegrateRPMDStepKernel k'))
                           (integrator w);
           calls := calls w |}).

(** *** Member functions *)

(** [contextRef] is a reference: the object it names is live, or the call
    is undefined from its first line. *)
Definition initialize (contextRef : addr) : M unit :=
  ac <- deref (Some contextRef) ;;
  i <- this ;;
  if match owner i with
     | Some o => negb (N.eqb (getOwner ac.2) o)
     | None => false
     end
  then throw (OpenMMException "This Integrator is already bound to a context")
  else
    assign (set_context (Some contextRef)) ;;
    assign (set_owner (Some (getOwner ac.2))) ;;
    i <- this ;;
    k <- on_context (context i)
           (Call_createKernel IntegrateRPMDStepKernel_Name)
           (fun c => Platform_createKernel (getPlatform c)
                       IntegrateRPMDStepKernel_Name c) ;;
    assign (set_kernel (Some k)) ;;
    i <- this ;;
    on_kernel Call_kernel_initialize
      (fun k => Kernel_initialize k (getSystem ac.2) (view i)).

Definition getKernelNames : list string :=
  let names := [] in
  let names := names ++ [IntegrateRPMDStepKernel_Name] in
  names.

Definition setPositions (copy : Z) (positions : list Vec3) : M unit :=
  on_kernel (Call_kernel_setPositions copy positions)
    (fun k => Kernel_setPositions k copy positions).

Definition setVelocities (copy : Z) (velocities : list Vec3) : M unit :=
  on_kernel (Call_kernel_setVelocities copy velocities)
    (fun k => Kernel_setVelocities k copy velocities).

(** [context->getOwner().getState(types)] reads the [Context] that owns
    [*context]; that [Context] reads its own [ContextImpl], which is
    [*context] for as long as the context has not been rebuilt behind the
    integrator's back. *)
Definition getState (copy : Z) (types : Z) : M State :=
  k <- cast_kernel ;;
  i <- this ;;
  on_context (context i) (Call_kernel_copyToContext copy)
    (fun c => Kernel_copyToContext k copy c) ;;
  i <- this ;;
  ac <- deref (context i) ;;
  log (Call_Context_getState ac.1 types) ;;
  fun w => (Context_getState ac.2 types, w).

(** One turn of the loop in [step]. *)
Definition step_iteration : M unit :=
  i <- this ;;
  on_context (context i) Call_updateContextState
    ContextImpl_updateContextState ;;
  i <- this ;;
  on_context (context i)
    (fun a => Call_calcForcesAndEnergy a true false)
    (fun c => ContextImpl_calcForcesAndEnergy c true false) ;;
  k <- cast_kernel ;;
  i <- this ;;
  ac <- deref (context i) ;;
  log (Call_kernel_execute ac.1) ;;
  fun w =>
    let '(r, (k', d)) := Kernel_execute k ac.2 (view i) in
    (r, {| heap := <[ac.1 := setData ac.2 d]> (heap w);
           integrator := set_kernel (Some (IntegrateRPMDStepKernel k'))
                           (integrator w);
           calls := calls w |}).

(** [for (int i = ...; i < steps; ++i) body]. *)
Equations? for_loop (i steps : Z) (body : M unit) (w : World)
  : outcome unit * World by wf (Z.to_nat (steps - i)) lt :=
  for_loop i steps body w with Z_lt_dec i steps := {
    | left _ with body w := {
        | (Ret _, w') := for_loop (i + 1) steps body w';
        | (Throw e, w') := (Throw e, w');
        | (Undefined, w') := (Undefined, w') };
    | right _ := (Ret tt, w) }.
Proof. lia. Qed.

Definition step (steps : Z) : M unit :=
  for_loop 0 steps step_iteration.

End Integrator.

(** ** A lifetime of calls *)

Section Lifetime.
Context `{Backend}.

(** What a caller can do with an integrator, and what can happen around it:
    contexts are built and destroyed by the caller, not by the integrator. *)
Inductive Op :=
| Op_initialize (contextRef : addr)
| Op_getKernelNames
| Op_setPositions (copy : Z) (positions : list Vec3)
| Op_setVelocities (copy : Z) (velocities : list Vec3)
| Op_getState (copy : Z) (types : Z)
| Op_step (steps : Z)
| Op_setTemperature (temp : float)
| Op_setFriction (coeff : float)
| Op_setStepSize (size : float)
| Op_setConstraintTolerance (tol : float)
| Op_setRandomNumberSeed (seed : Z)
| Op_contexts (live : gmap addr ContextImpl).

Definition perform (o : Op) : M unit :=
  match o with
  | Op_initialize contextRef => initialize contextRef
  | Op_getKernelNames => ret tt
  | Op_setPositions copy positions => setPositions copy positions
  | Op_setVelocities copy velocities => setVelocities copy velocities
  | Op_getState copy types => _ <- getState copy types ;; ret tt
  | Op_step steps => step steps
  | Op_setTemperature temp => assign (setTemperature temp)
  | Op_setFriction coeff => assign (setFriction coeff)
  | Op_setStepSize size => assign (setStepSize size)
  | Op_setConstraintTolerance tol => assign (setConstraintTolerance tol)
  | Op_setRandomNumberSeed seed => assign (setRandomNumberSeed seed)
  | Op_contexts live =>
      fun w => (Ret tt, {| heap := live; integrator := integrator w;
                           calls := calls w |})
  end.

(** The caller goes on after an exception: the next call finds the world as
    the failed one left it.  Nothing goes on after undefined behaviour. *)
Fixpoint run (ops : list Op) (w : World) : World :=
  match ops with
  | [] => w
  | o :: ops =>
      match perform o w with
      | (Undefined, w') => w'
      | (_, w') => run ops w'
      end
  end.

(** A world that holds a freshly constructed integrator. *)
Definition fresh (live : gmap addr ContextImpl) (i : RPMDIntegrator) : World :=
  {| heap := live; integrator := i; calls := [] |}.

(** The integrator is bound: its pointers are live and its kernel is of the
    class it asked for. *)
Definition bound (w : World) (a : addr) (c : ContextImpl) (k : RPMDKernelData)
  : Prop :=
  context (integrator w) = Some a /\
  heap w !! a = Some c /\
  owner (integrator w) = Some (getOwner c) /\
  kernel (integrator w) = Some (IntegrateRPMDStepKernel k).

(** The integrator as a successful [initialize] leaves it. *)
Definition rebound (contextRef : addr) (c : ContextImpl) (k : RPMDKernelData)
    (i : RPMDIntegrator) : RPMDIntegrator :=
  {| owner := Some (getOwner c); context := Some contextRef;
     kernel := Some (IntegrateRPMDStepKernel k);
     numCopies := numCopies i; temperature := temperature i;
     friction := friction i; stepSize := stepSize i;
     constraintTolerance := constraintTolerance i;
     randomNumberSeed := randomNumberSeed i |}.

(** The calls of [n] turns of the loop of [step]. *)
Definition turn (a : addr) : list Event :=
  [Call_updateContextState a; Call_calcForcesAndEnergy a true false;
   Call_kernel_execute a].

Fixpoint turns (n : nat) (a : addr) : list Event :=
  match n with
  | O => []
  | S n => turn a ++ turns n a
  end.

(** The parameter setter behind a call, if the call is one. *)
Definition setter_of (o : Op) : option (RPMDIntegrator -> RPMDIntegrator) :=
  match o with
  | Op_setTemperature temp => Some (setTemperature temp)
  | Op_setFriction coeff => Some (setFriction coeff)
  | Op_setStepSize size => Some (setStepSize size)
  | Op_setConstraintTolerance tol => Some (setConstraintTolerance tol)
  | Op_setRandomNumberSeed seed => Some (setRandomNumberSeed seed)
  | _ => None
  end.

(** A computation keeps a relation between the integrator it finds and the
    integrator it leaves, whatever its outcome. *)
Definition keeps (R : RPMDIntegrator -> RPMDIntegrator -> Prop) {A} (m : M A)
  : Prop :=
  forall w, R (integrator w) (integrator (m w).2).

(** No collaborator that [step] calls ever throws. *)
Definition step_collaborators_return : Prop :=
  (forall c, (ContextImpl_updateContextState c).1 = Ret tt) /\
  (forall c f e, (ContextImpl_calcForcesAndEnergy c f e).1 = Ret tt) /\
  (forall k c v, (Kernel_execute k c v).1 = Ret tt).

End Lifetime.

(** ** An in-memory backend

    A small backend to run the integrator on concrete inputs.  Its kernel
    keeps one position vector and one velocity vector per copy index in a
    map and drifts every bead along its velocity at each step.  It comes on
    two platforms: the kernel of the [Lenient] one stores what it is given,
    the kernel of the [Strict] one checks the copy index and the length of
    the vector first. *)

Module InMemory.

Inductive Platform_ := Lenient | Strict.

Record ContextData_ := mkData {
  positions : list Vec3;
  velocities : list Vec3;
  time : float;
}.

Record KernelData_ := mkKernel {
  checks : bool;
  particles : nat;
  copies : Z;
  bead_positions : gmap Z (list Vec3);
  bead_velocities : gmap Z (list Vec3);
}.

Record System_ := mkSystem { numParticles : nat }.

Record State_ := mkState {
  state_positions : option (list Vec3);
  state_velocities : option (list Vec3);
}.

#[export] Instance types : BackendTypes :=
  {| System := System_; Platform := Platform_; ContextData := ContextData_;
     RPMDKernelData := KernelData_; OtherKernelData := unit;
     State := State_ |}.

Definition origin : Vec3 := mkVec3 0 0 0.

Definition drift (dt : float) (x v : Vec3) : Vec3 :=
  mkVec3 (vec_x x + dt * vec_x v) (vec_y x + dt * vec_y v)
         (vec_z x + dt * vec_z v).

Definition allocate (copies : Z) (n : nat) : gmap Z (list Vec3) :=
  list_to_map ((fun copy => (copy, replicate n origin)) <$> seqZ 0 copies).

Definition createKernel (p : Platform_) (name : string) (c : ContextImpl)
  : outcome KernelImpl * ContextData_ :=
  if String.eqb name "IntegrateRPMDStep"
  then (Ret (IntegrateRPMDStepKernel
               (mkKernel (match p with Strict => true | Lenient => false end)
                         0 0 ∅ ∅)),
        getData c)
  else (Throw (OpenMMException "no such kernel"), getData c).

Definition kernel_initialize (k : KernelData_) (s : System_)
    (v : IntegratorView) : outcome unit * KernelData_ :=
  (Ret tt, mkKernel (checks k) (numParticles s) (getNumCopies v)
                    (allocate (getNumCopies v) (numParticles s))
                    (allocate (getNumCopies v) (numParticles s))).

Definition kernel_execute (k : KernelData_) (c : ContextImpl)
    (v : IntegratorView) : outcome unit * (KernelData_ * ContextData_) :=
  (Ret tt,
   (mkKernel (checks k) (particles k) (copies k)
      (map_imap (fun copy xs =>
                   Some (zip_with (drift (getStepSize v)) xs
                           (default [] (bead_velocities k !! copy))))
                (bead_positions k))
      (bead_velocities k),
    mkData (positions (getData c)) (velocities (getData c))
           (time (getData c) + getStepSize v))).

Definition in_range (k : KernelData_) (copy : Z) : bool :=
  negb (checks k) || ((0 <=? copy) && (copy <? copies k)).

Definition fits (k : KernelData_) (xs : list Vec3) : bool :=
  negb (checks k) || Nat.eqb (length xs) (particles k).

Definition kernel_setPositions (k : KernelData_) (copy : Z) (xs : list Vec3)
  : outcome unit * KernelData_ :=
  if in_range k copy && fits k xs
  then (Ret tt, mkKernel (checks k) (particles k) (copies k)
                         (<[copy := xs]> (bead_positions k))
                         (bead_velocities k))
  else (Throw (OpenMMException "rejected by the kernel"), k).

Definition kernel_setVelocities (k : KernelData_) (copy : Z) (vs : list Vec3)
  : outcome unit * KernelData_ :=
  if in_range k copy && fits k vs
  then (Ret tt, mkKernel (checks k) (particles k) (copies k)
                         (bead_positions k)
                         (<[copy := vs]> (bead_velocities k)))
  else (Throw (OpenMMException "rejected by the kernel"), k).

Definition kernel_copyToContext (k : KernelData_) (copy : Z) (c : ContextImpl)
  : outcome unit * ContextData_ :=
  if in_range k copy
  then (Ret tt, mkData (default [] (bead_positions k !! copy))
                       (default [] (bead_velocities k !! copy))
                       (time (getData c)))
  else (Throw (OpenMMException "rejected by the kernel"), getData c).

Definition context_getState (c : ContextImpl) (types : Z) : outcome State_ :=
  Ret (mkState
         (if Z.testbit types 0 then Some (positions (getData c)) else None)
         (if Z.testbit types 1 then Some (velocities (getData c)) else None)).

#[export] Instance backend : Backend :=
  {| IntegrateRPMDStepKernel_Name := "IntegrateRPMDStep";
     Platform_createKernel := createKernel;
     Kernel_initialize := kernel_initialize;
     Kernel_execute := kernel_execute;
     Kernel_setPositions := kernel_setPositions;
     Kernel_setVelocities := kernel_setVelocities;
     Kernel_copyToContext := kernel_copyToContext;
     ContextImpl_updateContextState := fun c => (Ret tt, getData c);
     ContextImpl_calcForcesAndEnergy := fun c _ _ => (Ret tt, getData c);
     Context_getState := context_getState |}.

(** Two contexts over a system of two particles: the [ContextImpl] at
    address 1 belongs to the [Context] at 10 and runs on the lenient
    platform, the one at 2 belongs to the [Context] at 20 and runs on the
    strict one. *)
Definition at_rest : ContextData_ := mkData [origin; origin] [origin; origin] 0.

Definition lenient_context : ContextImpl :=
  mkContextImpl 10%N Lenient (mkSystem 2) at_rest.

Definition strict_context : ContextImpl :=
  mkContextImpl 20%N Strict (mkSystem 2) at_rest.

Definition contexts : gmap addr ContextImpl :=
  <[1%N := lenient_context]> (<[2%N := strict_context]> ∅).

(** An integrator of two copies, constructed when the clock read
    1700000000; the same integrator once bound to the first context; and
    one bound to the second context instead. *)
Definition unbound_world : World :=
  fresh contexts (RPMDIntegrator_new 1700000000 2 300 1 0.5).

Definition bound_world : World := (initialize 1%N unbound_world).2.

Definition strict_world : World := (initialize 2%N unbound_world).2.

(** The kernel data of each, as [initialize] leaves them. *)
Definition lenient_kernel : KernelData_ :=
  mkKernel false 2 2 (allocate 2 2) (allocate 2 2).

Definition strict_kernel : KernelData_ :=
  mkKernel true 2 2 (allocate 2 2) (allocate 2 2).

(** Positions for the two particles of one bead, and the bound integrator
    once they are given to copy 1. *)
Definition here : list Vec3 := [mkVec3 1 2 3; mkVec3 4 5 6].

Definition placed_world : World := (setPositions 1 here bound_world).2.

Definition placed_kernel : KernelData_ :=
  mkKernel false 2 2 (<[1 := here]> (allocate 2 2)) (allocate 2 2).

(** The positions the kernel of the integrator holds for a copy index. *)
Definition bead (w : World) (copy : Z) : option (list Vec3) :=
  match kernel (integrator w) with
  | Some (IntegrateRPMDStepKernel k) => bead_positions k !! copy
  | _ => None
  end.

End InMemory.

(** ** Frames and turns *)

Section Frames.
Context `{Backend}.

(** What a [ContextImpl] is given at construction and keeps. *)
Definition fixed (c : ContextImpl) : addr * Platform * System :=
  (getOwner c, getPlatform c, getSystem c).

(** The calls that reach for a context or rebuild the set of contexts. *)
Definition rebinds (o : Op) : bool :=
  match o with
  | Op_initialize _ | Op_contexts _ => true
  | _ => false
  end.

(** The [ContextImpl] a member function works on: its argument for
    [initialize], [*context] for the others. *)
Definition target (o : Op) (w : World) : option addr :=
  match o with
  | Op_initialize contextRef => Some contextRef
  | _ => context (integrator w)
  end.

(** Between [w] and [w'] no context but the one at [p] has changed, the
    same contexts are live, and each has the owner, platform and system it
    had. *)
Definition writes_only (p : option addr) (w w' : World) : Prop :=
  (forall b, p <> Some b -> heap w' !! b = heap w !! b) /\
  (forall b, fixed <$> (heap w' !! b) = fixed <$> (heap w !! b)).

(** What the collaborators make of a context and a kernel in one turn of
    [step]: the outcome of the first call that does not return, or of
    [execute], with the context and the kernel as the calls made so far
    leave them. *)
Definition one_turn (v : IntegratorView) (c : ContextImpl)
    (k : RPMDKernelData) : outcome unit * (ContextImpl * RPMDKernelData) :=
  match ContextImpl_updateContextState c with
  | (Ret _, d1) =>
      match ContextImpl_calcForcesAndEnergy (setData c d1) true false with
      | (Ret _, d2) =>
          let '(r, (k', d3)) :=
            Kernel_execute k (setData (setData c d1) d2) v in
          (r, (setData (setData (setData c d1) d2) d3, k'))
      | (r, d2) => (r, (setData (setData c d1) d2, k))
      end
  | (r, d1) => (r, (setData c d1, k))
  end.

(** The same for [n] turns, each starting where the one before ended, up
    to the first turn that does not return. *)
Fixpoint after_turns (n : nat) (v : IntegratorView) (c : ContextImpl)
    (k : RPMDKernelData) : outcome unit * (ContextImpl * RPMDKernelData) :=
  match n with
  | O => (Ret tt, (c, k))
  | S n =>
      match one_turn v c k with
      | (Ret _, (c', k')) => after_turns n v c' k'
      | stopped => stopped
      end
  end.

(** The collaborators behind [setPositions], [setVelocities], [getState]
    and [step] have no undefined behaviour of their own. *)
Definition collaborators_defined : Prop :=
  (forall k copy xs, (Kernel_setPositions k copy xs).1 <> Undefined) /\
  (forall k copy vs, (Kernel_setVelocities k copy vs).1 <> Undefined) /\
  (forall k copy c, (Kernel_copyToContext k copy c).1 <> Undefined) /\
  (forall c types, Context_getState c types <> Undefined) /\
  (forall c, (ContextImpl_updateContextState c).1 <> Undefined) /\
  (forall c f e, (ContextImpl_calcForcesAndEnergy c f e).1 <> Undefined) /\
  (forall k c v, (Kernel_execute k c v).1 <> Undefined).

End Frames.

(** ** Platforms that do not deliver

    The in-memory backend with another factory: on its [Lenient] platform
    [createKernel] throws, as a platform without the kernel does, and on
    its [Strict] platform it returns a kernel of another class. *)

Module Mismatch.

Definition createKernel (p : InMemory.Platform_) (name : string)
    (c : ContextImpl (H := InMemory.types))
  : outcome (KernelImpl (H := InMemory.types)) * InMemory.ContextData_ :=
  match p with
  | InMemory.Lenient =>
      (Throw (OpenMMException "no such kernel"), getData c)
  | InMemory.Strict =>
      (Ret (OtherKernelImpl (H := InMemory.types) tt), getData c)
  end.

Definition backend : Backend (H := InMemory.types) :=
  @Build_Backend InMemory.types
    "IntegrateRPMDStep"
    createKernel
    InMemory.kernel_initialize
    InMemory.kernel_execute
    InMemory.kernel_setPositions
    InMemory.kernel_setVelocities
    InMemory.kernel_copyToContext
    (fun c => (Ret tt, getData c))
    (fun c _ _ => (Ret tt, getData c))
    InMemory.context_getState.

(** The integrator after a bind on the platform without the kernel, and
    after a bind on the platform with the kernel of another class. *)
Definition refused_world : World :=
  (initialize (H0 := backend) 1%N InMemory.unbound_world).2.

Definition mismatched_world : World :=
  (initialize (H0 := backend) 2%N InMemory.unbound_world).2.

End Mismatch.

(** The bound integrator of the in-memory backend after its [Context], the
    one at 10, has destroyed its [ContextImpl] at address 1 and built
    another at address 3: the integrator's context pointer dangles. *)
Definition rebuilt_world : World :=
  {| heap := <[3%N := InMemory.lenient_context]>
               (<[2%N := InMemory.strict_context]> ∅);
     integrator := integrator InMemory.bound_world;
     calls := calls InMemory.bound_world |}.

(** ** The initial positions of the tests

    The tests at the end of the file place their particles by integer
    formulas; the values are small integers, which [Vec3] holds exactly. *)

(** [Vec3(i/2, (i+1)/2, 0)], of [testConstraints], for an [int i].  The sum
    [i + 1] is computed in [int]: there is no position where it does not
    fit. *)
Definition chain_position (i : Z) : option (Z * Z * Z) :=
  if (- 2 ^ 31 <=? i) && (i + 1 <? 2 ^ 31)
  then Some (Z.quot i 2, Z.quot (i + 1) 2, 0)
  else None.

(** [Vec3((i%2 == 0 ? 2 : -2), (i%4 < 2 ? 2 : -2), (i < 4 ? 2 : -2))], of
    [testTemperature] and [testRandomSeed]. *)
Definition corner_position (i : Z) : Z * Z * Z :=
  (if Z.rem i 2 =? 0 then 2 else -2,
   if Z.rem i 4 <? 2 then 2 else -2,
   if i <? 4 then 2 else -2).

(** The square of the distance the tests compute,
    [(p1[0]-p2[0])*(p1[0]-p2[0]) + ...]. *)
Definition distance2 (p q : Z * Z * Z) : Z :=
  (p.1.1 - q.1.1) * (p.1.1 - q.1.1) + (p.1.2 - q.1.2) * (p.1.2 - q.1.2)
  + (p.2 - q.2) * (p.2 - q.2).

(** ** The loop *)

Section Loop.
Context `{Backend}.

Lemma for_loop_done (i steps : Z) (body : M unit) (w : World) :
  steps <= i -> for_loop i steps body w = (Ret tt, w).
Proof.
  intros Hle. simp for_loop.
  destruct (Z_lt_dec i steps) as [Hlt | Hge]; [lia | reflexivity].
Qed.

Lemma for_loop_turn (i steps : Z) (body : M unit) (w : World) :
  i < steps ->
  for_loop i steps body w =
  match body w with
  | (Ret _, w') => for_loop (i + 1) steps body w'
  | (Throw e, w') => (Throw e, w')
  | (Undefined, w') => (Undefined, w')
  end.
Proof.
  intros Hlt. simp for_loop.
  destruct (Z_lt_dec i steps) as [Hlt' | Hge]; [ | lia].
  simpl. destruct (body w) as [[[] | e | ] w']; reflexivity.
Qed.

End Loop.

(** ** What every call leaves alone *)

Ltac run :=
  unfold bind, ret, throw, this, assign, log, deref in *;
  simpl in *.

Section Frame.
Context `{Backend}.
Variable R : RPMDIntegrator -> RPMDIntegrator -> Prop.
Hypothesis R_refl : forall i, R i i.
Hypothesis R_trans : forall i j k, R i j -> R j k -> R i k.
Hypothesis R_set_kernel : forall k i, R i (set_kernel k i).
Hypothesis R_set_context : forall p i, R i (set_context p i).
Hypothesis R_set_owner :
  forall p i, owner i = None \/ owner i = Some p -> R i (set_owner (Some p) i).

Lemma keeps_bind {A B} (m : M A) (f : A -> M B) :
  keeps R m -> (forall a, keeps R (f a)) -> keeps R (bind m f).
Proof.
  intros Hm Hf w. unfold bind. specialize (Hm w).
  destruct (m w) as [[a | e | ] w']; simpl in *; auto.
  eapply R_trans; [exact Hm | apply Hf].
Qed.

Lemma keeps_same {A} (m : M A) :
  (forall w, integrator (m w).2 = integrator w) -> keeps R m.
Proof. intros Hm w. rewrite Hm. apply R_refl. Qed.

Lemma keeps_assign (f : RPMDIntegrator -> RPMDIntegrator) :
  (forall i, R i (f i)) -> keeps R (assign f).
Proof. intros Hf w. apply Hf. Qed.

Lemma keeps_deref (p : option addr) : keeps R (deref p).
Proof.
  apply keeps_same. intros w. unfold deref.
  destruct p as [a | ]; [destruct (heap w !! a) | ]; reflexivity.
Qed.

Lemma keeps_log (e : Event) : keeps R (log e).
Proof. apply keeps_same. reflexivity. Qed.

Lemma keeps_cast_kernel : keeps R cast_kernel.
Proof.
  apply keeps_same. intros w. unfold cast_kernel.
  destruct (kernel (integrator w)) as [[k | k] | ]; reflexivity.
Qed.

Lemma keeps_on_context {A} (p : option addr) (e : addr -> Event)
    (f : ContextImpl -> outcome A * ContextData) :
  keeps R (on_context p e f).
Proof.
  unfold on_context.
  apply keeps_bind; [apply keeps_deref | intros ac].
  apply keeps_bind; [apply keeps_log | intros _].
  apply keeps_same. intros w. destruct (f ac.2); reflexivity.
Qed.

Lemma keeps_on_kernel (e : Event)
    (f : RPMDKernelData -> outcome unit * RPMDKernelData) :
  keeps R (on_kernel e f).
Proof.
  unfold on_kernel.
  apply keeps_bind; [apply keeps_cast_kernel | intros k].
  apply keeps_bind; [apply keeps_log | intros _].
  intros w. destruct (f k); simpl. apply R_set_kernel.
Qed.

Lemma keeps_step_iteration : keeps R step_iteration.
Proof.
  unfold step_iteration.
  apply keeps_bind; [apply keeps_same; reflexivity | intros i].
  apply keeps_bind; [apply keeps_on_context | intros _].
  apply keeps_bind; [apply keeps_same; reflexivity | intros i'].
  apply keeps_bind; [apply keeps_on_context | intros _].
  apply keeps_bind; [apply keeps_cast_kernel | intros k].
  apply keeps_bind; [apply keeps_same; reflexivity | intros i''].
  apply keeps_bind; [apply keeps_deref | intros ac].
  apply keeps_bind; [apply keeps_log | intros _].
  intros w. destruct (Kernel_execute k ac.2 (view i'')) as [r [k' d]]; simpl.
  apply R_set_kernel.
Qed.

Lemma keeps_for_loop (body : M unit) (steps : Z) :
  keeps R body -> forall i, keeps R (for_loop i steps body).
Proof.
  intros Hbody i.
  remember (Z.to_nat (steps - i)) as n eqn:Hn.
  revert i Hn. induction n as [ | n IH]; intros i Hn w.
  - rewrite for_loop_done by lia. apply R_refl.
  - rewrite for_loop_turn by lia. specialize (Hbody w).
    destruct (body w) as [[[] | e | ] w']; simpl in *; auto.
    eapply R_trans; [exact Hbody | apply IH; lia].
Qed.

Lemma keeps_step (steps : Z) : keeps R (step steps).
Proof. apply keeps_for_loop, keeps_step_iteration. Qed.

Lemma keeps_setPositions (copy : Z) (positions : list Vec3) :
  keeps R (setPositions copy positions).
Proof. apply keeps_on_kernel. Qed.

Lemma keeps_setVelocities (copy : Z) (velocities : list Vec3) :
  keeps R (setVelocities copy velocities).
Proof. apply keeps_on_kernel. Qed.

Lemma keeps_getState (copy types : Z) : keeps R (getState copy types).
Proof.
  unfold getState.
  apply keeps_bind; [apply keeps_cast_kernel | intros k].
  apply keeps_bind; [apply keeps_same; reflexivity | intros i].
  apply keeps_bind; [apply keeps_on_context | intros _].
  apply keeps_bind; [apply keeps_same; reflexivity | intros i'].
  apply keeps_bind; [apply keeps_deref | intros ac].
  apply keeps_bind; [apply keeps_log | intros _].
  apply keeps_same. reflexivity.
Qed.

Lemma keeps_initialize (contextRef : addr) : keeps R (initialize contextRef).
Proof.
  assert (Htail : forall c : ContextImpl, keeps R (
      i <- this ;;
      k <- on_context (context i)
             (Call_createKernel IntegrateRPMDStepKernel_Name)
             (fun c => Platform_createKernel (getPlatform c)
                         IntegrateRPMDStepKernel_Name c) ;;
      assign (set_kernel (Some k)) ;;
      i <- this ;;
      on_kernel Call_kernel_initialize
        (fun k => Kernel_initialize k (getSystem c) (view i)))).
  { intros c.
    apply keeps_bind; [apply keeps_same; reflexivity | intros i].
    apply keeps_bind; [apply keeps_on_context | intros k].
    apply keeps_bind; [apply keeps_assign, R_set_kernel | intros _].
    apply keeps_bind; [apply keeps_same; reflexivity | intros i'].
    apply keeps_on_kernel. }
  intros w. unfold initialize.
  unfold bind at 1. unfold deref.
  destruct (heap w !! contextRef) as [c | ] eqn:Hc; [ | apply R_refl].
  unfold bind at 1. unfold this at 1. cbn [fst snd].
  assert (Hbind : owner (integrator w) = None \/
                  owner (integrator w) = Some (getOwner c) ->
                  R (integrator w)
                    (set_owner (Some (getOwner c))
                       (set_context (Some contextRef) (integrator w)))).
  { intros Ho. eapply R_trans; [apply R_set_context | apply R_set_owner].
    exact Ho. }
  destruct (owner (integrator w)) as [o | ] eqn:Ho.
  - destruct (N.eqb_spec (getOwner c) o) as [Heq | Hne]; cbn [negb];
      [ | apply R_refl].
    unfold bind at 1. unfold assign at 1.
    unfold bind at 1. unfold assign at 1. cbn [integrator heap calls].
    eapply R_trans; [ | apply Htail]. apply Hbind. right. congruence.
  - unfold bind at 1. unfold assign at 1.
    unfold bind at 1. unfold assign at 1. cbn [integrator heap calls].
    eapply R_trans; [ | apply Htail]. apply Hbind. left. reflexivity.
Qed.

Lemma keeps_perform (o : Op) :
  (forall f, setter_of o = Some f -> forall i, R i (f i)) ->
  keeps R (perform o).
Proof.
  intros Hset.
  destruct o; simpl;
    try (apply keeps_assign, Hset; reflexivity).
  - apply keeps_initialize.
  - apply keeps_same. reflexivity.
  - apply keeps_setPositions.
  - apply keeps_setVelocities.
  - apply keeps_bind; [apply keeps_getState | intros s].
    apply keeps_same. reflexivity.
  - apply keeps_step.
  - apply keeps_same. reflexivity.
Qed.

Lemma keeps_run (ops : list Op) :
  (forall o f, o ∈ ops -> setter_of o = Some f -> forall i, R i (f i)) ->
  forall w, R (integrator w) (integrator (run ops w)).
Proof.
  induction ops as [ | o ops IH]; intros Hset w; simpl.
  - apply R_refl.
  - assert (Ho : R (integrator w) (integrator (perform o w).2)).
    { apply (keeps_perform o). intros f. apply Hset. left. }
    destruct (perform o w) as [[[] | e | ] w']; simpl in Ho;
      [ | | exact Ho];
      (eapply R_trans; [exact Ho | ]);
      apply IH; intros o' f Hin; apply Hset; right; exact Hin.
Qed.

End Frame.

(** ** One turn of the loop, and the loop *)

Section Step.
Context `{Backend}.

Lemma turns_succ (n : nat) (a : addr) : turns (S n) a = turn a ++ turns n a.
Proof. reflexivity. Qed.

(** What a turn does from a bound integrator: either it logs the three
    calls and leaves the integrator bound, or a collaborator did not return
    and the log ends with the call to it. *)
Lemma step_iteration_calls (w w' : World) (a : addr) (c : ContextImpl)
    (k : RPMDKernelData) (r : outcome unit) :
  bound w a c k ->
  step_iteration w = (r, w') ->
  (r = Ret tt /\ calls w' = calls w ++ turn a /\
   exists c' k', bound w' a c' k') \/
  (r <> Ret tt /\
   exists rest, calls w' = calls w ++ rest /\ rest `prefix_of` turn a /\
                rest <> []).
Proof.
  intros (Hctx & Hheap & Hown & Hker).
  unfold step_iteration, on_context, cast_kernel. run.
  rewrite Hctx, Hheap. simpl.
  destruct (ContextImpl_updateContextState c) as [[[] | e | ] d1]; simpl;
    [ | intros [= <- <-]; right; (split; [discriminate | ]);
        exists [Call_updateContextState a]; simpl;
        (split; [reflexivity | ]); (split; [ | discriminate]);
        eexists; reflexivity .. ].
  rewrite Hctx, lookup_insert_eq. simpl.
  destruct (ContextImpl_calcForcesAndEnergy (setData c d1) true false)
    as [[[] | e | ] d2]; simpl;
    [ | intros [= <- <-]; right; (split; [discriminate | ]);
        exists [Call_updateContextState a;
                Call_calcForcesAndEnergy a true false]; simpl;
        (split; [rewrite <- app_assoc; reflexivity | ]);
        (split; [ | discriminate]);
        eexists; reflexivity .. ].
  rewrite Hker. simpl. rewrite Hctx, lookup_insert_eq. simpl.
  destruct (Kernel_execute k (setData (setData c d1) d2) (view (integrator w)))
    as [[[] | e | ] [k' d3]]; simpl; intros [= <- <-]; simpl;
    [ left | right .. ].
  - split; [reflexivity | ]. split.
    + unfold turn. rewrite <- !app_assoc. reflexivity.
    + exists (setData (setData (setData c d1) d2) d3), k'.
      unfold bound; simpl. rewrite lookup_insert_eq. auto.
  - split; [discriminate | ]. exists (turn a).
    split; [unfold turn; rewrite <- !app_assoc; reflexivity | ].
    split; [reflexivity | discriminate].
  - split; [discriminate | ]. exists (turn a).
    split; [unfold turn; rewrite <- !app_assoc; reflexivity | ].
    split; [reflexivity | discriminate].
Qed.

(** With collaborators that return, a turn returns. *)
Lemma step_iteration_returns (w : World) (a : addr) (c : ContextImpl)
    (k : RPMDKernelData) :
  step_collaborators_return ->
  bound w a c k ->
  exists w', step_iteration w = (Ret tt, w').
Proof.
  intros (Hupd & Hcalc & Hexe) (Hctx & Hheap & Hown & Hker).
  unfold step_iteration, on_context, cast_kernel. run.
  rewrite Hctx, Hheap. simpl.
  specialize (Hupd c).
  destruct (ContextImpl_updateContextState c) as [r1 d1]; simpl in *.
  subst r1. rewrite Hctx, lookup_insert_eq. simpl.
  specialize (Hcalc (setData c d1) true false).
  destruct (ContextImpl_calcForcesAndEnergy (setData c d1) true false)
    as [r2 d2]; simpl in *.
  subst r2. rewrite Hker. simpl. rewrite Hctx, lookup_insert_eq. simpl.
  specialize (Hexe k (setData (setData c d1) d2) (view (integrator w))).
  destruct (Kernel_execute k (setData (setData c d1) d2) (view (integrator w)))
    as [r3 [k' d3]]; simpl in *.
  subst r3. eexists. reflexivity.
Qed.

(** The loop of [step], from any value of its counter. *)
Lemma for_loop_calls (steps : Z) (a : addr) (n : nat) :
  forall (i : Z) (w w' : World) (c : ContextImpl) (k : RPMDKernelData)
         (r : outcome unit),
    n = Z.to_nat (steps - i) ->
    bound w a c k ->
    for_loop i steps step_iteration w = (r, w') ->
    exists (m : nat) (rest : list Event),
      calls w' = calls w ++ turns m a ++ rest /\
      rest `prefix_of` turn a /\
      (r = Ret tt -> m = n /\ rest = [] /\ exists c' k', bound w' a c' k') /\
      (r <> Ret tt -> (m < n)%nat /\ rest <> []).
Proof.
  induction n as [ | n IH]; intros i w w' c k r Hn Hb.
  - rewrite for_loop_done by lia. intros [= <- <-].
    exists O, []. simpl. rewrite app_nil_r.
    split; [reflexivity | ]. split; [apply prefix_nil | ].
    split; [ | congruence]. intros _. split; [reflexivity | ].
    split; [reflexivity | ]. exists c, k. exact Hb.
  - rewrite for_loop_turn by lia.
    destruct (step_iteration w) as [r1 w1] eqn:Hturn.
    destruct (step_iteration_calls _ _ _ _ _ _ Hb Hturn)
      as [(-> & Hcalls & c1 & k1 & Hb1) | (Hr1 & rest & Hcalls & Hpre & Hne)].
    + intros Hloop.
      destruct (IH (i + 1) w1 w' c1 k1 r ltac:(lia) Hb1 Hloop)
        as (m & rest & Hc & Hpre & Hret & Hfail).
      exists (S m), rest. rewrite Hc, Hcalls, turns_succ, <- !app_assoc.
      split; [reflexivity | ]. split; [exact Hpre | ]. split.
      * intros Hr. destruct (Hret Hr) as (-> & -> & Hb'). auto.
      * intros Hr. destruct (Hfail Hr). split; [lia | assumption].
    + assert (Hstop : (r, w') = (r1, w1) -> r = r1 /\ w' = w1)
        by (intros [= -> ->]; auto).
      intros Hloop.
      assert (r = r1 /\ w' = w1) as [-> ->].
      { apply Hstop. rewrite <- Hloop.
        destruct r1 as [[] | e | ]; [congruence | reflexivity .. ]. }
      exists O, rest. simpl.
      split; [exact Hcalls | ]. split; [exact Hpre | ].
      split; [intros Hr; contradiction | ].
      intros _. split; [lia | exact Hne].
Qed.

(** With collaborators that return, the loop returns. *)
Lemma for_loop_returns (steps : Z) (a : addr) (n : nat) :
  step_collaborators_return ->
  forall (i : Z) (w : World) (c : ContextImpl) (k : RPMDKernelData),
    n = Z.to_nat (steps - i) ->
    bound w a c k ->
    exists w', for_loop i steps step_iteration w = (Ret tt, w').
Proof.
  intros Hret. induction n as [ | n IH]; intros i w c k Hn Hb.
  - rewrite for_loop_done by lia. eauto.
  - rewrite for_loop_turn by lia.
    destruct (step_iteration_returns w a c k Hret Hb) as [w1 Hturn].
    rewrite Hturn.
    destruct (step_iteration_calls _ _ _ _ _ _ Hb Hturn)
      as [(_ & _ & c1 & k1 & Hb1) | (Hr & _)]; [ | congruence].
    apply (IH (i + 1) w1 c1 k1); [lia | exact Hb1].
Qed.

End Step.

(** ** What each call does *)

Section Calls.
Context `{Backend}.

(** A call on the kernel of a bound integrator is the kernel's own call. *)
Lemma on_kernel_bound (w : World) (a : addr) (c : ContextImpl)
    (k : RPMDKernelData) (e : Event)
    (f : RPMDKernelData -> outcome unit * RPMDKernelData) :
  bound w a c k ->
  on_kernel e f w =
  ((f k).1,
   {| heap := heap w;
      integrator := set_kernel (Some (IntegrateRPMDStepKernel (f k).2))
                      (integrator w);
      calls := calls w ++ [e] |}).
Proof.
  intros (_ & _ & _ & Hker). unfold on_kernel, cast_kernel. run.
  rewrite Hker. simpl. destruct (f k); reflexivity.
Qed.

(** Writing back the kernel that is already there changes nothing. *)
Lemma set_kernel_same (i : RPMDIntegrator) (k : option KernelImpl) :
  kernel i = k -> set_kernel k i = i.
Proof. intros <-. destruct i; reflexivity. Qed.

(** [initialize] returns exactly when the context is live, the integrator
    is unbound or bound to the owner of that context, the Platform makes a
    kernel of the right class, and that kernel's [initialize] returns. *)
Lemma initialize_returns (w w' : World) (contextRef : addr) :
  initialize contextRef w = (Ret tt, w') <->
  exists (c : ContextImpl) (k0 k1 : RPMDKernelData) (d : ContextData),
    heap w !! contextRef = Some c /\
    (owner (integrator w) = None \/
     owner (integrator w) = Some (getOwner c)) /\
    Platform_createKernel (getPlatform c) IntegrateRPMDStepKernel_Name c =
      (Ret (IntegrateRPMDStepKernel k0), d) /\
    Kernel_initialize k0 (getSystem c) (view (integrator w)) = (Ret tt, k1) /\
    w' = {| heap := <[contextRef := setData c d]> (heap w);
            integrator := rebound contextRef c k1 (integrator w);
            calls := calls w ++ [Call_createKernel IntegrateRPMDStepKernel_Name
                                   contextRef;
                                 Call_kernel_initialize] |}.
Proof.
  unfold initialize, on_context, on_kernel, cast_kernel. run.
  destruct (heap w !! contextRef) as [c | ] eqn:Hc; simpl;
    [ | split; [discriminate | intros (? & ? & ? & ? & [=] & _)]].
  assert (Hguard :
    (match owner (integrator w) with
     | Some o => negb (N.eqb (getOwner c) o)
     | None => false
     end = false) <->
    (owner (integrator w) = None \/
     owner (integrator w) = Some (getOwner c))).
  { destruct (owner (integrator w)) as [o | ]; [ | tauto].
    destruct (N.eqb_spec (getOwner c) o) as [-> | Hne]; simpl.
    - tauto.
    - split; [discriminate | ]. intros [[=] | [=]]. congruence. }
  destruct (match owner (integrator w) with
            | Some o => negb (N.eqb (getOwner c) o)
            | None => false
            end); simpl.
  { split; [discriminate | ].
    intros (c' & k0 & k1 & d & [= <-] & Hown & _).
    apply Hguard in Hown. discriminate. }
  rewrite Hc. simpl.
  destruct (Platform_createKernel (getPlatform c)
              IntegrateRPMDStepKernel_Name c) as [[[k0 | k0] | e | ] d] eqn:Hk;
    simpl.
  - change (view (set_kernel _ (set_owner _ (set_context _ (integrator w)))))
      with (view (integrator w)).
    destruct (Kernel_initialize k0 (getSystem c) (view (integrator w)))
      as [[[] | e | ] k1] eqn:Hinit; simpl.
    + split.
      * intros [= <-]. exists c, k0, k1, d.
        split; [reflexivity | ]. split; [apply Hguard; reflexivity | ].
        split; [exact Hk | ]. split; [exact Hinit | ].
        rewrite <- app_assoc. reflexivity.
      * intros (c' & k0' & k1' & d' & [= <-] & _ & Hk' & Hinit' & ->).
        rewrite Hk in Hk'. injection Hk' as <- <-.
        rewrite Hinit in Hinit'. injection Hinit' as <-.
        rewrite <- app_assoc. reflexivity.
    + split; [discriminate | ].
      intros (c' & k0' & k1' & d' & [= <-] & _ & Hk' & Hinit' & _).
      rewrite Hk in Hk'. injection Hk' as <- <-.
      rewrite Hinit in Hinit'. discriminate.
    + split; [discriminate | ].
      intros (c' & k0' & k1' & d' & [= <-] & _ & Hk' & Hinit' & _).
      rewrite Hk in Hk'. injection Hk' as <- <-.
      rewrite Hinit in Hinit'. discriminate.
  - split; [discriminate | ].
    intros (c' & k0' & k1' & d' & [= <-] & _ & Hk' & _).
    rewrite Hk in Hk'. discriminate.
  - split; [discriminate | ].
    intros (c' & k0' & k1' & d' & [= <-] & _ & Hk' & _).
    rewrite Hk in Hk'. discriminate.
  - split; [discriminate | ].
    intros (c' & k0' & k1' & d' & [= <-] & _ & Hk' & _).
    rewrite Hk in Hk'. discriminate.
Qed.

(** [initialize] throws before it writes anything when the integrator is
    bound to the owner of another context. *)
Lemma initialize_rejects (w : World) (contextRef : addr) (c : ContextImpl)
    (o : addr) :
  heap w !! contextRef = Some c ->
  owner (integrator w) = Some o ->
  getOwner c <> o ->
  initialize contextRef w =
  (Throw (OpenMMException "This Integrator is already bound to a context"), w).
Proof.
  intros Hc Ho Hne. unfold initialize. run. rewrite Hc. simpl. rewrite Ho.
  destruct (N.eqb_spec (getOwner c) o); [contradiction | reflexivity].
Qed.

End Calls.

Section Reads.
Context `{Backend}.

(** [getState] on a bound integrator whose kernel flushes the copy. *)
Lemma getState_flushed (w : World) (a : addr) (c : ContextImpl)
    (k : RPMDKernelData) (copy types : Z) (d : ContextData) :
  bound w a c k ->
  Kernel_copyToContext k copy c = (Ret tt, d) ->
  getState copy types w =
  (Context_getState (setData c d) types,
   {| heap := <[a := setData c d]> (heap w);
      integrator := integrator w;
      calls := calls w ++ [Call_kernel_copyToContext copy a;
                           Call_Context_getState a types] |}).
Proof.
  intros (Hctx & Hheap & _ & Hker) Hcopy.
  unfold getState, on_context, cast_kernel. run.
  rewrite Hker. simpl. rewrite Hctx, Hheap. simpl. rewrite Hcopy. simpl.
  rewrite Hctx, lookup_insert_eq. simpl. rewrite <- app_assoc. reflexivity.
Qed.

(** [getState] on a bound integrator whose kernel does not flush the copy:
    the context is never asked for a snapshot. *)
Lemma getState_not_flushed (w : World) (a : addr) (c : ContextImpl)
    (k : RPMDKernelData) (copy types : Z) (r : outcome unit)
    (d : ContextData) :
  bound w a c k ->
  Kernel_copyToContext k copy c = (r, d) ->
  r <> Ret tt ->
  exists r' : outcome State,
    (forall s, r' <> Ret s) /\
    getState copy types w =
    (r', {| heap := <[a := setData c d]> (heap w);
            integrator := integrator w;
            calls := calls w ++ [Call_kernel_copyToContext copy a] |}).
Proof.
  intros (Hctx & Hheap & _ & Hker) Hcopy Hr.
  unfold getState, on_context, cast_kernel. run.
  rewrite Hker. simpl. rewrite Hctx, Hheap. simpl. rewrite Hcopy. simpl.
  destruct r as [[] | e | ]; [contradiction | | ].
  - exists (Throw e). split; [discriminate | reflexivity].
  - exists Undefined. split; [discriminate | reflexivity].
Qed.

Lemma to_int_in_range (v : Z) : - 2 ^ 31 <= v < 2 ^ 31 -> to_int v = v.
Proof. intros Hv. unfold to_int. rewrite Z.mod_small; lia. Qed.

End Reads.

(** ** The binding protocol *)

Section Binding.
Context `{Backend}.

(** C1: while the integrator is bound ([owner] is not null), [initialize] on
    a context of another owner throws "This Integrator is already bound to a
    context" and leaves the world as it found it; [initialize] on a context
    of the same owner passes the check and returns whenever the Platform
    makes the kernel and the kernel's [initialize] returns, with [owner] as
    before; and whatever is called afterwards, in whatever order, [owner]
    stays what it is. *)
Theorem initialize_binds_one_context (w : World) (contextRef : addr)
    (c : ContextImpl) (o : addr) :
  heap w !! contextRef = Some c ->
  owner (integrator w) = Some o ->
  (getOwner c <> o ->
   initialize contextRef w =
   (Throw (OpenMMException "This Integrator is already bound to a context"),
    w)) /\
  (getOwner c = o ->
   forall (k0 k1 : RPMDKernelData) (d : ContextData),
     Platform_createKernel (getPlatform c) IntegrateRPMDStepKernel_Name c =
       (Ret (IntegrateRPMDStepKernel k0), d) ->
     Kernel_initialize k0 (getSystem c) (view (integrator w)) = (Ret tt, k1) ->
     exists w', initialize contextRef w = (Ret tt, w') /\
                owner (integrator w') = Some o) /\
  (forall ops : list Op, owner (integrator (run ops w)) = Some o).
Proof.
  intros Hc Ho. split; [ | split].
  - intros Hne. apply (initialize_rejects w contextRef c o Hc Ho Hne).
  - intros Hsame k0 k1 d Hk Hinit. eexists. split.
    + apply initialize_returns. exists c, k0, k1, d.
      split; [exact Hc | ]. split; [right; congruence | ].
      split; [exact Hk | ]. split; [exact Hinit | reflexivity].
    + simpl. congruence.
  - intros ops.
    apply (keeps_run (fun i i' => owner i = Some o -> owner i' = Some o));
      try exact Ho; auto.
    + intros p i [Hnone | Hsome] Hi; simpl; congruence.
    + intros op f _ Hf i. destruct op; simpl in Hf; try discriminate;
        injection Hf as <-; auto.
Qed.

(** C10: [initialize] returns exactly when the context is live, the binding
    check passes, the Platform's [createKernel] makes a kernel of the right
    class and that kernel's [initialize] returns; it then has called
    [createKernel] and the kernel's [initialize] once each, and the
    integrator holds the new context pointer, the owner of that context and
    the kernel just made.  Nothing of the kernel it held before enters the
    result, also when the context is the one it was bound to already. *)
Theorem initialize_makes_a_new_kernel (w w' : World) (contextRef : addr) :
  initialize contextRef w = (Ret tt, w') <->
  exists (c : ContextImpl) (k0 k1 : RPMDKernelData) (d : ContextData),
    heap w !! contextRef = Some c /\
    (owner (integrator w) = None \/
     owner (integrator w) = Some (getOwner c)) /\
    Platform_createKernel (getPlatform c) IntegrateRPMDStepKernel_Name c =
      (Ret (IntegrateRPMDStepKernel k0), d) /\
    Kernel_initialize k0 (getSystem c) (view (integrator w)) = (Ret tt, k1) /\
    w' = {| heap := <[contextRef := setData c d]> (heap w);
            integrator :=
              {| owner := Some (getOwner c); context := Some contextRef;
                 kernel := Some (IntegrateRPMDStepKernel k1);
                 numCopies := numCopies (integrator w);
                 temperature := temperature (integrator w);
                 friction := friction (integrator w);
                 stepSize := stepSize (integrator w);
                 constraintTolerance := constraintTolerance (integrator w);
                 randomNumberSeed := randomNumberSeed (integrator w) |};
            calls := calls w ++ [Call_createKernel IntegrateRPMDStepKernel_Name
                                   contextRef;
                                 Call_kernel_initialize] |}.
Proof. apply initialize_returns. Qed.

End Binding.

(** ** Construction and parameters *)

Section Parameters.
Context `{Backend}.

(** C7, as the code has it: [numCopies] is the constructor's argument,
    whatever its value, and no sequence of calls changes it. *)
Theorem numCopies_as_constructed (clock n : Z) (temp coeff size : float)
    (live : gmap addr ContextImpl) (ops : list Op) :
  numCopies (RPMDIntegrator_new clock n temp coeff size) = n /\
  numCopies
    (integrator (run ops (fresh live (RPMDIntegrator_new clock n temp coeff size))))
  = n.
Proof.
  split; [reflexivity | ].
  apply (keeps_run (fun i i' => numCopies i = n -> numCopies i' = n));
    auto.
  intros op f _ Hf i. destruct op; simpl in Hf; try discriminate;
    injection Hf as <-; auto.
Qed.

(** C8: a freshly constructed integrator has [constraintTolerance] 1e-4 and
    [randomNumberSeed] the clock reading converted to [int] (the reading
    itself when it fits); each keeps that value through every sequence of
    calls that does not contain its setter, and takes the value given to its
    setter otherwise. *)
Theorem constructor_defaults (clock n : Z) (temp coeff size : float) :
  let i := RPMDIntegrator_new clock n temp coeff size in
  constraintTolerance i = 1e-4%float /\
  randomNumberSeed i = to_int clock /\
  (- 2 ^ 31 <= clock < 2 ^ 31 -> randomNumberSeed i = clock) /\
  (forall live ops,
     (forall tol, Op_setConstraintTolerance tol ∉ ops) ->
     constraintTolerance (integrator (run ops (fresh live i))) = 1e-4%float) /\
  (forall live ops,
     (forall seed, Op_setRandomNumberSeed seed ∉ ops) ->
     randomNumberSeed (integrator (run ops (fresh live i))) = to_int clock) /\
  (forall w tol,
     constraintTolerance (integrator (run [Op_setConstraintTolerance tol] w))
     = tol) /\
  (forall w seed,
     randomNumberSeed (integrator (run [Op_setRandomNumberSeed seed] w))
     = seed).
Proof.
  intros i. split; [reflexivity | ]. split; [reflexivity | ].
  split; [intros Hfit; apply to_int_in_range, Hfit | ].
  split; [ | split; [ | split; reflexivity]].
  - intros live ops Hno.
    apply (keeps_run (fun j j' => constraintTolerance j = 1e-4%float ->
                                  constraintTolerance j' = 1e-4%float));
      auto.
    intros op f Hin Hf j. destruct op; simpl in Hf; try discriminate;
      injection Hf as <-; auto.
    exfalso. exact (Hno _ Hin).
  - intros live ops Hno.
    apply (keeps_run (fun j j' => randomNumberSeed j = to_int clock ->
                                  randomNumberSeed j' = to_int clock));
      auto.
    intros op f Hin Hf j. destruct op; simpl in Hf; try discriminate;
      injection Hf as <-; auto.
    exfalso. exact (Hno _ Hin).
Qed.

End Parameters.

(** ** What a turn makes of the context and the kernel *)

Section Turns.
Context `{Backend}.

(** A turn of [step] on a bound integrator applies the collaborators as
    [one_turn] does: the outcome is theirs, the context pointed to holds
    what they left and the kernel handle holds the kernel they left. *)
Lemma step_iteration_result (w : World) (a : addr) (c : ContextImpl)
    (k : RPMDKernelData) :
  bound w a c k ->
  (step_iteration w).1 = (one_turn (view (integrator w)) c k).1 /\
  heap (step_iteration w).2 =
    <[a := (one_turn (view (integrator w)) c k).2.1]> (heap w) /\
  integrator (step_iteration w).2 =
    set_kernel
      (Some (IntegrateRPMDStepKernel
               (one_turn (view (integrator w)) c k).2.2))
      (integrator w) /\
  bound (step_iteration w).2 a
    (one_turn (view (integrator w)) c k).2.1
    (one_turn (view (integrator w)) c k).2.2.
Proof.
  intros (Hctx & Hheap & Hown & Hker).
  pose proof (set_kernel_same _ _ Hker) as Hsame.
  unfold step_iteration, on_context, cast_kernel, one_turn. run.
  rewrite Hctx, Hheap. simpl.
  destruct (ContextImpl_updateContextState c) as [[[] | e | ] d1]; simpl;
    [ | unfold bound; simpl; rewrite Hsame, lookup_insert_eq; repeat split; auto .. ].
  rewrite Hctx, lookup_insert_eq. simpl.
  destruct (ContextImpl_calcForcesAndEnergy (setData c d1) true false)
    as [[[] | e | ] d2]; simpl;
    [ | unfold bound; simpl;
        rewrite Hsame, insert_insert_eq, lookup_insert_eq;
        repeat split; auto .. ].
  rewrite Hker. simpl. rewrite Hctx, lookup_insert_eq. simpl.
  destruct (Kernel_execute k (setData (setData c d1) d2) (view (integrator w)))
    as [r [k' d3]]; simpl.
  unfold bound; simpl. rewrite !insert_insert_eq, lookup_insert_eq.
  repeat split; auto.
Qed.

(** The loop of [step] applies them turn after turn, as [after_turns]
    does. *)
Lemma for_loop_result (steps : Z) (a : addr) (n : nat) :
  forall (i : Z) (w : World) (c : ContextImpl) (k : RPMDKernelData),
    n = Z.to_nat (steps - i) ->
    bound w a c k ->
    (for_loop i steps step_iteration w).1 =
      (after_turns n (view (integrator w)) c k).1 /\
    heap (for_loop i steps step_iteration w).2 =
      <[a := (after_turns n (view (integrator w)) c k).2.1]> (heap w) /\
    integrator (for_loop i steps step_iteration w).2 =
      set_kernel
        (Some (IntegrateRPMDStepKernel
                 (after_turns n (view (integrator w)) c k).2.2))
        (integrator w).
Proof.
  induction n as [ | n IH]; intros i w c k Hn Hb.
  - rewrite for_loop_done by lia. simpl.
    destruct Hb as (_ & Hheap & _ & Hker).
    rewrite (set_kernel_same _ _ Hker), (insert_id _ _ _ Hheap). auto.
  - rewrite for_loop_turn by lia. simpl.
    destruct (step_iteration_result w a c k Hb) as (Hr & Hh & Hi & Hb1).
    destruct (step_iteration w) as [r1 w1]. simpl in *.
    destruct (one_turn (view (integrator w)) c k) as [r [c1 k1]].
    simpl in *. subst r1.
    destruct r as [[] | e | ]; [ | auto .. ].
    destruct (IH (i + 1) w1 c1 k1 ltac:(lia) Hb1) as (Hr' & Hh' & Hi').
    rewrite Hr', Hh', Hi', Hh, Hi, insert_insert_eq. auto.
Qed.

End Turns.

(** ** Stepping *)

Section Stepping.
Context `{Backend}.

(** C2: on a bound integrator and for [steps >= 0], [step] makes its calls
    in turns of three, [updateContextState], then
    [calcForcesAndEnergy(true, false)], then the kernel's [execute], and no
    other call.  When the collaborators return it returns after exactly
    [steps] turns, the integrator still bound.  In general it returns only
    after exactly [steps] full turns, and otherwise the log ends inside a
    turn, at the call that did not return.  The calls are made, not only
    counted: the outcome of [step], the context it leaves and the kernel it
    leaves are those of applying the three collaborators, each to what the
    one before left, turn after turn. *)
Theorem step_calls_in_turns (w : World) (a : addr) (c : ContextImpl)
    (k : RPMDKernelData) (steps : Z) :
  bound w a c k ->
  0 <= steps ->
  (step_collaborators_return ->
   exists w' c' k',
     step steps w = (Ret tt, w') /\
     bound w' a c' k' /\
     calls w' = calls w ++ turns (Z.to_nat steps) a) /\
  (forall r w',
     step steps w = (r, w') ->
     exists (m : nat) (rest : list Event),
       calls w' = calls w ++ turns m a ++ rest /\
       rest `prefix_of` turn a /\
       (r = Ret tt -> m = Z.to_nat steps /\ rest = []) /\
       (r <> Ret tt -> (m < Z.to_nat steps)%nat /\ rest <> [])) /\
  (step steps w).1 =
    (after_turns (Z.to_nat steps) (view (integrator w)) c k).1 /\
  heap (step steps w).2 =
    <[a := (after_turns (Z.to_nat steps) (view (integrator w)) c k).2.1]>
      (heap w) /\
  integrator (step steps w).2 =
    set_kernel
      (Some (IntegrateRPMDStepKernel
               (after_turns (Z.to_nat steps) (view (integrator w)) c k).2.2))
      (integrator w).
Proof.
  intros Hb Hsteps. unfold step. split; [ | split].
  - intros Hret.
    destruct (for_loop_returns steps a (Z.to_nat steps) Hret 0 w c k
                ltac:(f_equal; lia) Hb) as [w' Hrun].
    destruct (for_loop_calls steps a (Z.to_nat steps) 0 w w' c k (Ret tt)
                ltac:(f_equal; lia) Hb Hrun)
      as (m & rest & Hcalls & _ & Hdone & _).
    destruct (Hdone eq_refl) as (-> & -> & c' & k' & Hb').
    exists w', c', k'. rewrite app_nil_r in Hcalls. auto.
  - intros r w' Hrun.
    destruct (for_loop_calls steps a (Z.to_nat steps) 0 w w' c k r
                ltac:(f_equal; lia) Hb Hrun)
      as (m & rest & Hcalls & Hpre & Hdone & Hfail).
    exists m, rest. split; [exact Hcalls | ]. split; [exact Hpre | ].
    split; [ | exact Hfail].
    intros Hr. destruct (Hdone Hr) as (-> & -> & _). auto.
  - apply (for_loop_result steps a (Z.to_nat steps) 0 w c k);
      [f_equal; lia | exact Hb].
Qed.

(** C9: for [steps <= 0] the loop of [step] is not entered: [step] returns,
    and the world it leaves, with its contexts, its kernel and its log of
    calls, is the world it found, bound or not. *)
Theorem step_nonpositive (w : World) (steps : Z) :
  steps <= 0 -> step steps w = (Ret tt, w).
Proof. intros Hle. unfold step. apply for_loop_done. exact Hle. Qed.

End Stepping.

(** ** Per-copy access *)

Section Copies.
Context `{Backend}.

(** C3: on a bound integrator, [getState] first calls the kernel's
    [copyToContext] for the copy asked for.  When that returns, the snapshot
    is the one [Context::getState] assembles from the context as
    [copyToContext] left it, the context keeps that data after the call, and
    the kernel is as before.  When it does not return, [Context::getState]
    is never called and no snapshot is returned. *)
Theorem getState_flushes_then_reads (w : World) (a : addr) (c : ContextImpl)
    (k : RPMDKernelData) (copy types : Z) :
  bound w a c k ->
  (forall d,
     Kernel_copyToContext k copy c = (Ret tt, d) ->
     getState copy types w =
     (Context_getState (setData c d) types,
      {| heap := <[a := setData c d]> (heap w);
         integrator := integrator w;
         calls := calls w ++ [Call_kernel_copyToContext copy a;
                              Call_Context_getState a types] |})) /\
  (forall r d,
     Kernel_copyToContext k copy c = (r, d) ->
     r <> Ret tt ->
     exists r' : outcome State,
       (forall s, r' <> Ret s) /\
       getState copy types w =
       (r', {| heap := <[a := setData c d]> (heap w);
               integrator := integrator w;
               calls := calls w ++ [Call_kernel_copyToContext copy a] |})).
Proof.
  intros Hb. split.
  - intros d. apply getState_flushed. exact Hb.
  - intros r d. apply getState_not_flushed. exact Hb.
Qed.

(** [getState] on a bound integrator, whatever the kernel does with the
    copy: what comes out of [copyToContext] other than a return comes out
    of [getState] as it is. *)
Lemma getState_bound (w : World) (a : addr) (c : ContextImpl)
    (k : RPMDKernelData) (copy types : Z) :
  bound w a c k ->
  getState copy types w =
  (match (Kernel_copyToContext k copy c).1 with
   | Ret _ =>
       Context_getState (setData c (Kernel_copyToContext k copy c).2) types
   | Throw e => Throw e
   | Undefined => Undefined
   end,
   {| heap := <[a := setData c (Kernel_copyToContext k copy c).2]> (heap w);
      integrator := integrator w;
      calls := calls w ++
               Call_kernel_copyToContext copy a ::
               match (Kernel_copyToContext k copy c).1 with
               | Ret _ => [Call_Context_getState a types]
               | _ => []
               end |}).
Proof.
  intros (Hctx & Hheap & _ & Hker).
  unfold getState, on_context, cast_kernel. run.
  rewrite Hker. simpl. rewrite Hctx, Hheap. simpl.
  destruct (Kernel_copyToContext k copy c) as [[[] | e | ] d]; simpl;
    try reflexivity.
  rewrite Hctx, lookup_insert_eq. simpl. rewrite <- app_assoc. reflexivity.
Qed.

(** C4, as the code has it: [setPositions], [setVelocities] and [getState]
    do not look at the copy index.  On a bound integrator each hands it, in
    range or not, to the kernel's [setPositions], [setVelocities] or
    [copyToContext] as its first call, and the outcome and the data left
    behind are the kernel's: what the kernel throws is what the call
    throws. *)
Theorem copy_index_goes_to_the_kernel (w : World) (a : addr)
    (c : ContextImpl) (k : RPMDKernelData) (copy types : Z)
    (xs : list Vec3) :
  bound w a c k ->
  setPositions copy xs w =
    ((Kernel_setPositions k copy xs).1,
     {| heap := heap w;
        integrator :=
          set_kernel
            (Some (IntegrateRPMDStepKernel (Kernel_setPositions k copy xs).2))
            (integrator w);
        calls := calls w ++ [Call_kernel_setPositions copy xs] |}) /\
  setVelocities copy xs w =
    ((Kernel_setVelocities k copy xs).1,
     {| heap := heap w;
        integrator :=
          set_kernel
            (Some (IntegrateRPMDStepKernel (Kernel_setVelocities k copy xs).2))
            (integrator w);
        calls := calls w ++ [Call_kernel_setVelocities copy xs] |}) /\
  getState copy types w =
    (match (Kernel_copyToContext k copy c).1 with
     | Ret _ =>
         Context_getState (setData c (Kernel_copyToContext k copy c).2) types
     | Throw e => Throw e
     | Undefined => Undefined
     end,
     {| heap := <[a := setData c (Kernel_copyToContext k copy c).2]> (heap w);
        integrator := integrator w;
        calls := calls w ++
                 Call_kernel_copyToContext copy a ::
                 match (Kernel_copyToContext k copy c).1 with
                 | Ret _ => [Call_Context_getState a types]
                 | _ => []
                 end |}).
Proof.
  intros Hb. split; [ | split].
  - apply (on_kernel_bound w a c k (Call_kernel_setPositions copy xs)
             (fun k => Kernel_setPositions k copy xs) Hb).
  - apply (on_kernel_bound w a c k (Call_kernel_setVelocities copy xs)
             (fun k => Kernel_setVelocities k copy xs) Hb).
  - apply getState_bound. exact Hb.
Qed.

(** C5, as the code has it: [setPositions] and [setVelocities] do not look
    at the vector.  On a bound integrator the vector reaches the kernel as
    it was given, whatever its length, and the outcome is the kernel's; when
    the kernel throws and leaves its data as they were, the call throws what
    the kernel threw and the contexts and the integrator, its kernel
    included, are as before. *)
Theorem vector_goes_to_the_kernel (w : World) (a : addr) (c : ContextImpl)
    (k : RPMDKernelData) (copy : Z) (xs : list Vec3) :
  bound w a c k ->
  ((setPositions copy xs w).1 = (Kernel_setPositions k copy xs).1 /\
   calls (setPositions copy xs w).2 =
     calls w ++ [Call_kernel_setPositions copy xs] /\
   (forall e, Kernel_setPositions k copy xs = (Throw e, k) ->
      setPositions copy xs w =
      (Throw e, {| heap := heap w; integrator := integrator w;
                   calls := calls w ++ [Call_kernel_setPositions copy xs] |})))
  /\
  ((setVelocities copy xs w).1 = (Kernel_setVelocities k copy xs).1 /\
   calls (setVelocities copy xs w).2 =
     calls w ++ [Call_kernel_setVelocities copy xs] /\
   (forall e, Kernel_setVelocities k copy xs = (Throw e, k) ->
      setVelocities copy xs w =
      (Throw e, {| heap := heap w; integrator := integrator w;
                   calls := calls w ++ [Call_kernel_setVelocities copy xs] |}))).
Proof.
  intros Hb. pose proof Hb as (_ & _ & _ & Hker). split.
  - unfold setPositions.
    rewrite (on_kernel_bound w a c k (Call_kernel_setPositions copy xs)
               (fun k => Kernel_setPositions k copy xs) Hb).
    split; [reflexivity | ]. split; [reflexivity | ].
    intros e Hk. rewrite Hk. simpl.
    rewrite (set_kernel_same _ _ Hker). reflexivity.
  - unfold setVelocities.
    rewrite (on_kernel_bound w a c k (Call_kernel_setVelocities copy xs)
               (fun k => Kernel_setVelocities k copy xs) Hb).
    split; [reflexivity | ]. split; [reflexivity | ].
    intros e Hk. rewrite Hk. simpl.
    rewrite (set_kernel_same _ _ Hker). reflexivity.
Qed.

End Copies.

(** ** Steps add up *)

Section Additive.
Context `{Backend}.

(** The loop does not look at its counter: only the distance to the bound
    counts. *)
Lemma for_loop_shift (body : M unit) (steps d : Z) (n : nat) :
  forall (i : Z) (w : World),
    n = Z.to_nat (steps - i) ->
    for_loop (i + d) (steps + d) body w = for_loop i steps body w.
Proof.
  induction n as [ | n IH]; intros i w Hn.
  - rewrite !for_loop_done by lia. reflexivity.
  - rewrite (for_loop_turn (i + d)), (for_loop_turn i) by lia.
    destruct (body w) as [[[] | e | ] w']; try reflexivity.
    replace (i + d + 1) with (i + 1 + d) by lia.
    apply IH. lia.
Qed.

(** A loop to [steps] is a loop to any bound on the way, then the rest. *)
Lemma for_loop_split (body : M unit) (j steps : Z) (n : nat) :
  forall (i : Z) (w : World),
    n = Z.to_nat (j - i) ->
    i <= j <= steps ->
    for_loop i steps body w =
    (for_loop i j body ;; for_loop j steps body) w.
Proof.
  induction n as [ | n IH]; intros i w Hn Hij.
  - assert (i = j) as -> by lia. unfold bind.
    rewrite (for_loop_done j j) by lia. reflexivity.
  - unfold bind.
    rewrite (for_loop_turn i steps), (for_loop_turn i j) by lia.
    destruct (body w) as [[[] | e | ] w']; try reflexivity.
    apply (IH (i + 1) w'); lia.
Qed.

(** X5: stepping [m] times and then [n] times is stepping [m + n] times:
    the same calls, the same world and, when a collaborator throws, the
    same exception at the same call. *)
Theorem step_additive (m n : Z) (w : World) :
  0 <= m -> 0 <= n ->
  step (m + n) w = (step m ;; step n) w.
Proof.
  intros Hm Hn. unfold step.
  rewrite (for_loop_split step_iteration m (m + n) (Z.to_nat m) 0 w)
    by lia.
  unfold bind.
  destruct (for_loop 0 m step_iteration w) as [[[] | e | ] w1];
    try reflexivity.
  replace (for_loop m (m + n) step_iteration w1)
    with (for_loop (0 + m) (n + m) step_iteration w1)
    by (f_equal; lia).
  apply (for_loop_shift step_iteration n m (Z.to_nat n)). lia.
Qed.

End Additive.

(** ** Binds that fail half-way *)

Section HalfBound.
Context `{Backend}.

(** X1: a bind that returns leaves the integrator bound to the context it
    was given: its context pointer is live, its owner is the owner of that
    context, its kernel is of the class it casts to, the context has the
    owner, platform and system it had, and the parameters are untouched. *)
Theorem initialize_establishes_bound (w w' : World) (contextRef : addr) :
  initialize contextRef w = (Ret tt, w') ->
  exists (c c' : ContextImpl) (k : RPMDKernelData),
    heap w !! contextRef = Some c /\
    bound w' contextRef c' k /\
    fixed c' = fixed c /\
    view (integrator w') = view (integrator w).
Proof.
  intros Hinit. apply initialize_returns in Hinit
    as (c & k0 & k1 & d & Hc & _ & _ & _ & ->).
  exists c, (setData c d), k1. split; [exact Hc | ].
  split; [ | split; reflexivity].
  unfold bound; simpl. rewrite lookup_insert_eq. auto.
Qed.

(** X2: [initialize] writes [context] and [owner] before it asks for the
    kernel.  When [createKernel] throws, the exception comes out of
    [initialize], the kernel held is the one held before, and the
    integrator is bound all the same: every later bind to a context of
    another owner is refused. *)
Theorem failed_bind_still_binds (w : World) (contextRef : addr)
    (c : ContextImpl) (e : exn) (d : ContextData) :
  heap w !! contextRef = Some c ->
  owner (integrator w) = None \/ owner (integrator w) = Some (getOwner c) ->
  Platform_createKernel (getPlatform c) IntegrateRPMDStepKernel_Name c =
    (Throw e, d) ->
  let w' :=
    {| heap := <[contextRef := setData c d]> (heap w);
       integrator := set_owner (Some (getOwner c))
                       (set_context (Some contextRef) (integrator w));
       calls := calls w ++ [Call_createKernel IntegrateRPMDStepKernel_Name
                              contextRef] |} in
  initialize contextRef w = (Throw e, w') /\
  kernel (integrator w') = kernel (integrator w) /\
  forall (other : addr) (c2 : ContextImpl),
    heap w' !! other = Some c2 ->
    getOwner c2 <> getOwner c ->
    initialize other w' =
    (Throw (OpenMMException "This Integrator is already bound to a context"),
     w').
Proof.
  intros Hc Ho Hk w'. split; [ | split; [reflexivity | ]].
  - unfold initialize, on_context. run. rewrite Hc. simpl.
    assert (Hguard : match owner (integrator w) with
                     | Some o => negb (N.eqb (getOwner c) o)
                     | None => false
                     end = false).
    { destruct Ho as [-> | ->]; [reflexivity | ].
      rewrite N.eqb_refl. reflexivity. }
    rewrite Hguard. simpl. rewrite Hc. simpl. rewrite Hk. reflexivity.
  - intros other c2 Hc2 Hne.
    apply (initialize_rejects w' other c2 (getOwner c) Hc2 eq_refl Hne).
Qed.

(** X3: when the Platform returns a kernel of another class, [initialize]
    stores it and then throws [bad_cast] from the cast, before the kernel's
    [initialize] is called.  From then on [setPositions], [setVelocities]
    and [getState] throw [bad_cast] at their cast: they make no call and
    change nothing. *)
Theorem kernel_of_another_class (w : World) (contextRef : addr)
    (c : ContextImpl) (k : OtherKernelData) (d : ContextData) :
  heap w !! contextRef = Some c ->
  owner (integrator w) = None \/ owner (integrator w) = Some (getOwner c) ->
  Platform_createKernel (getPlatform c) IntegrateRPMDStepKernel_Name c =
    (Ret (OtherKernelImpl k), d) ->
  let w' :=
    {| heap := <[contextRef := setData c d]> (heap w);
       integrator := set_kernel (Some (OtherKernelImpl k))
                       (set_owner (Some (getOwner c))
                          (set_context (Some contextRef) (integrator w)));
       calls := calls w ++ [Call_createKernel IntegrateRPMDStepKernel_Name
                              contextRef] |} in
  initialize contextRef w = (Throw bad_cast, w') /\
  (forall copy xs, setPositions copy xs w' = (Throw bad_cast, w')) /\
  (forall copy xs, setVelocities copy xs w' = (Throw bad_cast, w')) /\
  (forall copy types, getState copy types w' = (Throw bad_cast, w')).
Proof.
  intros Hc Ho Hk w'. split; [ | repeat split].
  unfold initialize, on_context, on_kernel, cast_kernel. run.
  rewrite Hc. simpl.
  assert (Hguard : match owner (integrator w) with
                   | Some o => negb (N.eqb (getOwner c) o)
                   | None => false
                   end = false).
  { destruct Ho as [-> | ->]; [reflexivity | ].
    rewrite N.eqb_refl. reflexivity. }
  rewrite Hguard. simpl. rewrite Hc. simpl. rewrite Hk. reflexivity.
Qed.

(** X4: in a turn of [step] the kernel is cast after the context has been
    called twice.  With a kernel of another class, [step(n)] for [n >= 1]
    throws [bad_cast] in its first turn, after [updateContextState] and
    [calcForcesAndEnergy] have run: the context holds what they wrote, and
    the kernel's [execute] is never called. *)
Theorem step_casts_after_the_context_calls (w : World) (a : addr)
    (c : ContextImpl) (k : OtherKernelData) (d1 d2 : ContextData)
    (steps : Z) :
  context (integrator w) = Some a ->
  heap w !! a = Some c ->
  kernel (integrator w) = Some (OtherKernelImpl k) ->
  ContextImpl_updateContextState c = (Ret tt, d1) ->
  ContextImpl_calcForcesAndEnergy (setData c d1) true false = (Ret tt, d2) ->
  1 <= steps ->
  step steps w =
  (Throw bad_cast,
   {| heap := <[a := setData c d2]> (heap w);
      integrator := integrator w;
      calls := calls w ++ [Call_updateContextState a;
                           Call_calcForcesAndEnergy a true false] |}).
Proof.
  intros Hctx Hheap Hker Hupd Hcalc Hsteps. unfold step.
  rewrite for_loop_turn by lia.
  assert (Hturn : step_iteration w =
    (Throw bad_cast,
     {| heap := <[a := setData c d2]> (heap w);
        integrator := integrator w;
        calls := calls w ++ [Call_updateContextState a;
                             Call_calcForcesAndEnergy a true false] |})).
  { unfold step_iteration, on_context, cast_kernel. run.
    rewrite Hctx, Hheap. simpl. rewrite Hupd. simpl.
    rewrite Hctx, lookup_insert_eq. simpl. rewrite Hcalc. simpl.
    rewrite Hker. simpl. rewrite insert_insert_eq, <- app_assoc.
    reflexivity. }
  rewrite Hturn. reflexivity.
Qed.

End HalfBound.

(** ** What a call writes *)

Ltac frame_leaf Hc :=
  split; intros ?b; simpl;
  [ intros ?Hb; rewrite ?lookup_insert_ne by congruence; reflexivity
  | match goal with
    | |- context [<[?a := _]> _ !! ?b] =>
        destruct (decide (a = b)) as [<- | ?Hne];
        [ rewrite ?lookup_insert_eq, ?Hc; reflexivity
        | rewrite ?lookup_insert_ne by congruence; reflexivity ]
    | _ => reflexivity
    end ].

Section Writes.
Context `{Backend}.

Lemma writes_only_refl (p : option addr) (w : World) : writes_only p w w.
Proof. split; reflexivity. Qed.

Lemma writes_only_trans (p : option addr) (w1 w2 w3 : World) :
  writes_only p w1 w2 -> writes_only p w2 w3 -> writes_only p w1 w3.
Proof.
  intros [Ha1 Hf1] [Ha2 Hf2]. split; intros b.
  - intros Hb. rewrite (Ha2 b Hb). apply (Ha1 b Hb).
  - rewrite (Hf2 b). apply (Hf1 b).
Qed.

Lemma writes_only_same (p : option addr) (w w' : World) :
  heap w' = heap w -> writes_only p w w'.
Proof. intros Hh. split; intros b; rewrite Hh; reflexivity. Qed.

Lemma on_kernel_heap (e : Event)
    (f : RPMDKernelData -> outcome unit * RPMDKernelData) (w : World) :
  heap (on_kernel e f w).2 = heap w.
Proof.
  unfold on_kernel, cast_kernel. run.
  destruct (kernel (integrator w)) as [[k | k] | ]; simpl; try reflexivity.
  destruct (f k); reflexivity.
Qed.

Lemma step_iteration_frame (w : World) :
  context (integrator (step_iteration w).2) = context (integrator w) /\
  writes_only (context (integrator w)) w (step_iteration w).2.
Proof.
  unfold step_iteration, on_context, cast_kernel. run.
  destruct (context (integrator w)) as [a | ] eqn:Hp; simpl;
    [ | rewrite Hp; split; [reflexivity | apply writes_only_refl]].
  destruct (heap w !! a) as [c | ] eqn:Hc; simpl;
    [ | rewrite Hp; split; [reflexivity | apply writes_only_refl]].
  destruct (ContextImpl_updateContextState c) as [[[] | e | ] d1]; simpl;
    [ | rewrite Hp; split; [reflexivity | frame_leaf Hc] .. ].
  rewrite Hp, lookup_insert_eq. simpl.
  destruct (ContextImpl_calcForcesAndEnergy (setData c d1) true false)
    as [[[] | e | ] d2]; simpl;
    [ | rewrite Hp; split; [reflexivity | frame_leaf Hc] .. ].
  destruct (kernel (integrator w)) as [[k | k] | ]; simpl;
    [ | rewrite Hp; split; [reflexivity | frame_leaf Hc] .. ].
  rewrite Hp, lookup_insert_eq. simpl.
  destruct (Kernel_execute k (setData (setData c d1) d2) (view (integrator w)))
    as [[[] | e | ] [k' d3]]; simpl;
    rewrite Hp; (split; [reflexivity | frame_leaf Hc]).
Qed.

Lemma for_loop_frame (steps : Z) (n : nat) :
  forall (i : Z) (w : World),
    n = Z.to_nat (steps - i) ->
    context (integrator (for_loop i steps step_iteration w).2) =
      context (integrator w) /\
    writes_only (context (integrator w)) w
      (for_loop i steps step_iteration w).2.
Proof.
  induction n as [ | n IH]; intros i w Hn.
  - rewrite for_loop_done by lia. split; [reflexivity | ].
    apply writes_only_refl.
  - rewrite for_loop_turn by lia.
    destruct (step_iteration_frame w) as [Hctx Hw].
    destruct (step_iteration w) as [[[] | e | ] w1]; simpl in *;
      [ | split; assumption .. ].
    destruct (IH (i + 1) w1 ltac:(lia)) as [Hctx' Hw'].
    rewrite Hctx in Hctx', Hw'. split; [exact Hctx' | ].
    eapply writes_only_trans; eassumption.
Qed.

Lemma getState_frame (copy types : Z) (w : World) :
  integrator (getState copy types w).2 = integrator w /\
  writes_only (context (integrator w)) w (getState copy types w).2.
Proof.
  unfold getState, on_context, cast_kernel. run.
  destruct (kernel (integrator w)) as [[k | k] | ]; simpl;
    [ | split; [reflexivity | apply writes_only_refl] .. ].
  destruct (context (integrator w)) as [a | ] eqn:Hp; simpl;
    [ | split; [reflexivity | apply writes_only_refl]].
  destruct (heap w !! a) as [c | ] eqn:Hc; simpl;
    [ | split; [reflexivity | apply writes_only_refl]].
  destruct (Kernel_copyToContext k copy c) as [[[] | e | ] d]; simpl;
    [ | split; [reflexivity | frame_leaf Hc] .. ].
  rewrite Hp, lookup_insert_eq. simpl.
  split; [reflexivity | frame_leaf Hc].
Qed.

Lemma initialize_frame (contextRef : addr) (w : World) :
  writes_only (Some contextRef) w (initialize contextRef w).2.
Proof.
  unfold initialize, on_context, on_kernel, cast_kernel. run.
  destruct (heap w !! contextRef) as [c | ] eqn:Hc; simpl;
    [ | apply writes_only_refl].
  destruct (match owner (integrator w) with
            | Some o => negb (N.eqb (getOwner c) o)
            | None => false
            end); simpl; [apply writes_only_refl | ].
  rewrite Hc. simpl.
  destruct (Platform_createKernel (getPlatform c)
              IntegrateRPMDStepKernel_Name c) as [[[k0 | k0] | e | ] d];
    simpl; try (frame_leaf Hc).
  destruct (Kernel_initialize k0 (getSystem c) _) as [r k1]; simpl.
  frame_leaf Hc.
Qed.

Lemma perform_writes_only (o : Op) (w : World) :
  (forall live, o <> Op_contexts live) ->
  writes_only (target o w) w (perform o w).2.
Proof.
  intros Hop.
  destruct o; simpl;
    try (apply writes_only_same; reflexivity).
  - apply initialize_frame.
  - apply writes_only_same. apply on_kernel_heap.
  - apply writes_only_same. apply on_kernel_heap.
  - unfold bind, ret.
    pose proof (getState_frame copy types w) as [_ Hw].
    destruct (getState copy types w) as [[s | e | ] w']; exact Hw.
  - apply (for_loop_frame steps (Z.to_nat steps) 0 w). f_equal. lia.
  - exfalso. exact (Hop live eq_refl).
Qed.

(** X7: a member function writes to no [ContextImpl] but the one it works
    on, its argument for [initialize] and [*context] for the others,
    whether it returns or throws; and it never creates or destroys a
    [ContextImpl], nor changes the owner, platform or system of one. *)
Theorem calls_write_only_their_context (o : Op) (w : World) :
  (forall live, o <> Op_contexts live) ->
  (forall b, target o w <> Some b ->
             heap (perform o w).2 !! b = heap w !! b) /\
  (forall b, fixed <$> (heap (perform o w).2 !! b) =
             fixed <$> (heap w !! b)).
Proof. apply perform_writes_only. Qed.

End Writes.

(** ** Staying bound *)

Section StaysBound.
Context `{Backend}.

Lemma step_iteration_keeps_bound (w : World) (a : addr) (c : ContextImpl)
    (k : RPMDKernelData) :
  bound w a c k ->
  exists c' k', bound (step_iteration w).2 a c' k' /\ fixed c' = fixed c.
Proof.
  intros (Hctx & Hheap & Hown & Hker).
  unfold step_iteration, on_context, cast_kernel. run.
  rewrite Hctx, Hheap. simpl.
  destruct (ContextImpl_updateContextState c) as [[[] | e | ] d1]; simpl;
    [ | exists (setData c d1), k; unfold bound; simpl;
        rewrite lookup_insert_eq; auto .. ].
  rewrite Hctx, lookup_insert_eq. simpl.
  destruct (ContextImpl_calcForcesAndEnergy (setData c d1) true false)
    as [[[] | e | ] d2]; simpl;
    [ | exists (setData (setData c d1) d2), k; unfold bound; simpl;
        rewrite lookup_insert_eq; auto .. ].
  rewrite Hker. simpl. rewrite Hctx, lookup_insert_eq. simpl.
  destruct (Kernel_execute k (setData (setData c d1) d2) (view (integrator w)))
    as [r [k' d3]]; simpl.
  exists (setData (setData (setData c d1) d2) d3), k'.
  destruct r as [[] | e | ]; unfold bound; simpl;
    rewrite lookup_insert_eq; auto.
Qed.

Lemma for_loop_keeps_bound (steps : Z) (a : addr) (n : nat) :
  forall (i : Z) (w : World) (c : ContextImpl) (k : RPMDKernelData),
    n = Z.to_nat (steps - i) ->
    bound w a c k ->
    exists c' k',
      bound (for_loop i steps step_iteration w).2 a c' k' /\
      fixed c' = fixed c.
Proof.
  induction n as [ | n IH]; intros i w c k Hn Hb.
  - rewrite for_loop_done by lia. exists c, k. auto.
  - rewrite for_loop_turn by lia.
    destruct (step_iteration_keeps_bound w a c k Hb)
      as (c1 & k1 & Hb1 & Hfix1).
    destruct (step_iteration w) as [[[] | e | ] w1]; simpl in *;
      [ | exists c1, k1; auto .. ].
    destruct (IH (i + 1) w1 c1 k1 ltac:(lia) Hb1) as (c2 & k2 & Hb2 & Hfix2).
    exists c2, k2. split; [exact Hb2 | congruence].
Qed.

Lemma getState_keeps_bound (w : World) (a : addr) (c : ContextImpl)
    (k : RPMDKernelData) (copy types : Z) :
  bound w a c k ->
  exists c', bound (getState copy types w).2 a c' k /\ fixed c' = fixed c.
Proof.
  intros Hb. pose proof Hb as (Hctx & Hheap & Hown & Hker).
  destruct (Kernel_copyToContext k copy c) as [r d] eqn:Hcopy.
  exists (setData c d).
  assert (Hw : heap (getState copy types w).2 =
                 <[a := setData c d]> (heap w) /\
               integrator (getState copy types w).2 = integrator w).
  { destruct r as [[] | e | ].
    - rewrite (getState_flushed w a c k copy types d Hb Hcopy). auto.
    - destruct (getState_not_flushed w a c k copy types _ d Hb Hcopy
                  ltac:(discriminate)) as (r' & _ & ->). auto.
    - destruct (getState_not_flushed w a c k copy types _ d Hb Hcopy
                  ltac:(discriminate)) as (r' & _ & ->). auto. }
  destruct Hw as [Hh Hi]. unfold bound. rewrite Hh, Hi, lookup_insert_eq.
  auto.
Qed.

Lemma perform_keeps_bound (o : Op) (w : World) (a : addr) (c : ContextImpl)
    (k : RPMDKernelData) :
  rebinds o = false ->
  bound w a c k ->
  exists c' k', bound (perform o w).2 a c' k' /\ fixed c' = fixed c.
Proof.
  intros Ho Hb. pose proof Hb as (Hctx & Hheap & Hown & Hker).
  destruct o; simpl in *; try discriminate;
    try (exists c, k; split; [exact Hb | reflexivity]).
  - unfold setPositions.
    rewrite (on_kernel_bound w a c k (Call_kernel_setPositions copy positions)
               (fun k => Kernel_setPositions k copy positions) Hb).
    eexists c, _. unfold bound; simpl. eauto.
  - unfold setVelocities.
    rewrite (on_kernel_bound w a c k
               (Call_kernel_setVelocities copy velocities)
               (fun k => Kernel_setVelocities k copy velocities) Hb).
    eexists c, _. unfold bound; simpl. eauto.
  - destruct (getState_keeps_bound w a c k copy types Hb) as (c' & Hb' & Hfix).
    exists c', k. unfold bind, ret.
    destruct (getState copy types w) as [[s | e | ] w']; auto.
  - apply (for_loop_keeps_bound steps a (Z.to_nat steps) 0 w c k);
      [f_equal; lia | exact Hb].
Qed.

Lemma run_keeps_bound (ops : list Op) (w : World) (a : addr)
    (c : ContextImpl) (k : RPMDKernelData) :
  Forall (fun o => rebinds o = false) ops ->
  bound w a c k ->
  exists c' k', bound (run ops w) a c' k' /\ fixed c' = fixed c.
Proof.
  intros Hops. revert w c k.
  induction Hops as [ | o ops Ho _ IH]; intros w c k Hb; simpl.
  - exists c, k. auto.
  - destruct (perform_keeps_bound o w a c k Ho Hb) as (c1 & k1 & Hb1 & Hfix1).
    destruct (perform o w) as [[[] | e | ] w1]; simpl in *;
      [ | | exists c1, k1; auto ];
      destruct (IH w1 c1 k1 Hb1) as (c2 & k2 & Hb2 & Hfix2);
      exists c2, k2; (split; [exact Hb2 | congruence]).
Qed.

(** X6: once bound, the integrator stays bound to the same [ContextImpl]
    through every sequence of [setPositions], [setVelocities], [getState],
    [step] and parameter setters, whatever these return or throw: its
    context pointer stays live, its kernel stays of the class it casts to,
    and the context keeps its owner, platform and system.  So between binds
    none of these calls runs into a null or dangling pointer of the
    integrator's. *)
Theorem data_calls_keep_bound (ops : list Op) (w : World) (a : addr)
    (c : ContextImpl) (k : RPMDKernelData) :
  Forall (fun o => rebinds o = false) ops ->
  bound w a c k ->
  exists c' k', bound (run ops w) a c' k' /\ fixed c' = fixed c.
Proof. apply run_keeps_bound. Qed.

End StaysBound.


(** ** No null pointer between binds *)

Section Defined.
Context `{Backend}.

Lemma step_iteration_defined (w : World) (a : addr) (c : ContextImpl)
    (k : RPMDKernelData) :
  collaborators_defined ->
  bound w a c k ->
  (step_iteration w).1 <> Undefined.
Proof.
  intros (_ & _ & _ & _ & Hupd & Hcalc & Hexe) (Hctx & Hheap & Hown & Hker).
  unfold step_iteration, on_context, cast_kernel. run.
  rewrite Hctx, Hheap. simpl.
  specialize (Hupd c).
  destruct (ContextImpl_updateContextState c) as [[[] | e | ] d1];
    simpl in *; [ | discriminate | contradiction].
  rewrite Hctx, lookup_insert_eq. simpl.
  specialize (Hcalc (setData c d1) true false).
  destruct (ContextImpl_calcForcesAndEnergy (setData c d1) true false)
    as [[[] | e | ] d2]; simpl in *; [ | discriminate | contradiction].
  rewrite Hker. simpl. rewrite Hctx, lookup_insert_eq. simpl.
  specialize (Hexe k (setData (setData c d1) d2) (view (integrator w))).
  destruct (Kernel_execute k (setData (setData c d1) d2) (view (integrator w)))
    as [[[] | e | ] [k' d3]]; simpl in *;
    [discriminate | discriminate | contradiction].
Qed.

Lemma for_loop_defined (steps : Z) (a : addr) (n : nat) :
  collaborators_defined ->
  forall (i : Z) (w : World) (c : ContextImpl) (k : RPMDKernelData),
    n = Z.to_nat (steps - i) ->
    bound w a c k ->
    (for_loop i steps step_iteration w).1 <> Undefined.
Proof.
  intros Hdef. induction n as [ | n IH]; intros i w c k Hn Hb.
  - rewrite for_loop_done by lia. discriminate.
  - rewrite for_loop_turn by lia.
    pose proof (step_iteration_defined w a c k Hdef Hb) as Hturn.
    destruct (step_iteration_keeps_bound w a c k Hb) as (c1 & k1 & Hb1 & _).
    destruct (step_iteration w) as [[[] | e | ] w1]; simpl in *;
      [ | discriminate | contradiction].
    apply (IH (i + 1) w1 c1 k1); [lia | exact Hb1].
Qed.

Lemma getState_defined (w : World) (a : addr) (c : ContextImpl)
    (k : RPMDKernelData) (copy types : Z) :
  collaborators_defined ->
  bound w a c k ->
  (getState copy types w).1 <> Undefined.
Proof.
  intros (_ & _ & Hcopy & Hget & _) (Hctx & Hheap & Hown & Hker).
  unfold getState, on_context, cast_kernel. run.
  rewrite Hker. simpl. rewrite Hctx, Hheap. simpl.
  specialize (Hcopy k copy c).
  destruct (Kernel_copyToContext k copy c) as [[[] | e | ] d]; simpl in *;
    [ | discriminate | contradiction].
  rewrite Hctx, lookup_insert_eq. simpl. apply Hget.
Qed.

(** X16: between binds the integrator never goes through a null or
    dangling pointer.  On a bound integrator, and with collaborators that
    have no undefined behaviour of their own, every [setPositions],
    [setVelocities], [getState], [step] and setter call has a defined
    outcome, a return or an exception, at any point of any sequence of such
    calls. *)
Theorem bound_calls_are_defined (ops : list Op) (o : Op) (w : World)
    (a : addr) (c : ContextImpl) (k : RPMDKernelData) :
  collaborators_defined ->
  bound w a c k ->
  Forall (fun o => rebinds o = false) ops ->
  rebinds o = false ->
  (perform o (run ops w)).1 <> Undefined.
Proof.
  intros Hdef Hb Hops Ho.
  destruct (run_keeps_bound ops w a c k Hops Hb) as (c' & k' & Hb' & _).
  revert Hb'. generalize (run ops w). clear w Hb Hops. intros w Hb.
  pose proof Hdef as (Hpos & Hvel & _).
  destruct o; simpl in *; try discriminate.
  - unfold setPositions.
    rewrite (on_kernel_bound w a c' k' (Call_kernel_setPositions copy positions)
               (fun k => Kernel_setPositions k copy positions) Hb).
    apply Hpos.
  - unfold setVelocities.
    rewrite (on_kernel_bound w a c' k'
               (Call_kernel_setVelocities copy velocities)
               (fun k => Kernel_setVelocities k copy velocities) Hb).
    apply Hvel.
  - unfold bind, ret.
    pose proof (getState_defined w a c' k' copy types Hdef Hb) as Hget.
    destruct (getState copy types w) as [[s | e | ] w']; simpl in *;
      [discriminate | discriminate | contradiction].
  - apply (for_loop_defined steps a (Z.to_nat steps) Hdef 0 w c' k');
      [f_equal; lia | exact Hb].
Qed.

End Defined.

(** ** Contexts side by side *)

Section SideBySide.
Context `{Backend}.

Lemma run_writes_only_bound (ops : list Op) (w : World)
    (a b : addr) (c : ContextImpl) (k : RPMDKernelData) :
  Forall (fun o => rebinds o = false) ops ->
  bound w a c k ->
  b <> a ->
  heap (run ops w) !! b = heap w !! b.
Proof.
  intros Hops Hb Hne. revert w c k Hb.
  induction Hops as [ | o ops Ho _ IH]; intros w c k Hb; simpl;
    [reflexivity | ].
  destruct (perform_keeps_bound o w a c k Ho Hb) as (c1 & k1 & Hb1 & _).
  assert (Hstep : heap (perform o w).2 !! b = heap w !! b).
  { assert (Hop : forall live, o <> Op_contexts live)
      by (intros live ->; discriminate).
    destruct (perform_writes_only o w Hop) as [Hother _].
    apply Hother.
    assert (Htarget : target o w = Some a).
    { destruct Hb as (Hctx & _). destruct o; try exact Hctx; discriminate. }
    rewrite Htarget. congruence. }
  destruct (perform o w) as [[[] | e | ] w1]; simpl in *;
    [ | | exact Hstep]; rewrite (IH w1 c1 k1 Hb1); exact Hstep.
Qed.

(** X12: a bound integrator never writes to a [ContextImpl] other than the
    one it is bound to, through every sequence of [setPositions],
    [setVelocities], [getState], [step] and parameter setters, whatever
    these return or throw: two contexts with an integrator each do not
    reach each other through their integrators. *)
Theorem other_contexts_are_never_written (ops : list Op) (w : World)
    (a b : addr) (c : ContextImpl) (k : RPMDKernelData) :
  Forall (fun o => rebinds o = false) ops ->
  bound w a c k ->
  b <> a ->
  heap (run ops w) !! b = heap w !! b.
Proof. apply run_writes_only_bound. Qed.

(** X17: the binding check compares the owner the integrator remembers with
    the owner of the [ContextImpl] it is given, and looks neither at the
    context pointer it holds nor at what that points to.  So a [Context]
    can destroy its [ContextImpl], build another, at a new address or at
    the old one, and bind the integrator again: when that [initialize]
    returns, the [ContextImpl] given has the remembered owner, and through
    every later sequence of per-copy calls, steps and setters the context
    pointer is its address and no other address is written. *)
Theorem rebind_follows_the_rebuilt_context (ops : list Op) (w w1 : World)
    (new o : addr) :
  owner (integrator w) = Some o ->
  initialize new w = (Ret tt, w1) ->
  Forall (fun o => rebinds o = false) ops ->
  (exists c2, heap w !! new = Some c2 /\ getOwner c2 = o) /\
  context (integrator (run ops w1)) = Some new /\
  forall b, b <> new -> heap (run ops w1) !! b = heap w !! b.
Proof.
  intros Ho Hinit Hops.
  apply initialize_returns in Hinit
    as (c2 & k0 & k1 & d & Hc2 & Howner & _ & _ & ->).
  split.
  { exists c2. split; [exact Hc2 | ].
    destruct Howner as [Hnone | Hsome]; congruence. }
  match goal with
  | |- context [run ops ?w1] =>
      assert (Hb1 : bound w1 new (setData c2 d) k1)
        by (unfold bound; simpl; rewrite lookup_insert_eq; auto);
      destruct (run_keeps_bound ops w1 new _ _ Hops Hb1)
        as (c3 & k3 & (Hctx & _) & _);
      pose proof (fun b => run_writes_only_bound ops w1 new b _ _ Hops Hb1)
        as Hframe
  end.
  split; [exact Hctx | ].
  intros b Hb. rewrite (Hframe b Hb). simpl.
  apply lookup_insert_ne. congruence.
Qed.

End SideBySide.

(** ** Before the first bind, and the parameters *)

Section Unbound.
Context `{Backend}.

(** X9: a freshly constructed integrator has a kernel handle without an
    implementation and a context pointer that was never assigned.  Before
    the first [initialize], [setPositions], [setVelocities] and [getState]
    reach through the empty kernel handle and [step(n)], for [n >= 1],
    through the unassigned pointer: their behaviour is undefined, and none
    of them gets as far as calling a collaborator. *)
Theorem calls_before_the_first_bind (clock n : Z) (temp coeff size : float)
    (live : gmap addr ContextImpl) :
  let w := fresh live (RPMDIntegrator_new clock n temp coeff size) in
  (forall copy xs, setPositions copy xs w = (Undefined, w)) /\
  (forall copy xs, setVelocities copy xs w = (Undefined, w)) /\
  (forall copy types, getState copy types w = (Undefined, w)) /\
  (forall steps, 1 <= steps -> step steps w = (Undefined, w)).
Proof.
  intros w. split; [reflexivity | ]. split; [reflexivity | ].
  split; [reflexivity | ].
  intros steps Hsteps. unfold step. rewrite for_loop_turn by lia.
  reflexivity.
Qed.

(** X8: the parameters a kernel reads from the integrator (number of
    copies, temperature, friction, step size, constraint tolerance, seed)
    change only through the setters: binding, stepping and per-copy access
    leave all six as they were, whatever they return or throw. *)
Theorem parameters_change_only_by_setters (ops : list Op) (w : World) :
  Forall (fun o => setter_of o = None) ops ->
  view (integrator (run ops w)) = view (integrator w).
Proof.
  intros Hops.
  apply (keeps_run (fun i i' => view i' = view i)); auto.
  - intros i j k Hij Hjk. congruence.
  - intros o f Hin Hf. rewrite Forall_forall in Hops.
    rewrite (Hops o Hin) in Hf. discriminate.
Qed.

(** X13: the seed of a fresh integrator is the clock reading reduced into
    the range of [int]: it lies between -2^31 and 2^31 - 1, differs from the
    reading by a multiple of 2^32, and is the same for readings 2^32
    apart. *)
Theorem seed_wraps_with_the_clock (clock n : Z) (temp coeff size : float) :
  let seed := randomNumberSeed (RPMDIntegrator_new clock n temp coeff size) in
  - 2 ^ 31 <= seed < 2 ^ 31 /\
  (seed - clock) mod 2 ^ 32 = 0 /\
  forall k : Z,
    randomNumberSeed
      (RPMDIntegrator_new (clock + k * 2 ^ 32) n temp coeff size) = seed.
Proof.
  simpl. unfold to_int. split; [ | split].
  - pose proof (Z.mod_pos_bound (clock + 2 ^ 31) (2 ^ 32) ltac:(lia)). lia.
  - rewrite (Z.mod_eq (clock + 2 ^ 31) (2 ^ 32)) by lia.
    replace (clock + 2 ^ 31 - 2 ^ 32 * ((clock + 2 ^ 31) / 2 ^ 32) - 2 ^ 31
             - clock)
      with (- ((clock + 2 ^ 31) / 2 ^ 32) * 2 ^ 32) by lia.
    apply Z.mod_mul. lia.
  - intros k.
    replace (clock + k * 2 ^ 32 + 2 ^ 31) with (clock + 2 ^ 31 + k * 2 ^ 32)
      by lia.
    rewrite Z.mod_add by lia. reflexivity.
Qed.

End Unbound.

(** ** The initial positions of the tests *)

(** X14: the chain of [testConstraints] starts with every constraint
    satisfied.  For a number of particles that an [int] holds, every index
    the loops of the test reach has a position, particles [i] and [i + 1],
    which the test constrains to distance 1, are placed at distance exactly
    1, and no two particles share a place. *)
Theorem chain_starts_on_its_constraints (numParticles i j : Z) :
  numParticles < 2 ^ 31 ->
  0 <= i -> i + 1 < numParticles ->
  0 <= j < numParticles ->
  exists p q r,
    chain_position i = Some p /\
    chain_position (i + 1) = Some q /\
    chain_position j = Some r /\
    distance2 p q = 1 /\
    (p = r -> i = j).
Proof.
  intros Hn Hi Hi1 Hj.
  assert (Hpos : forall x, 0 <= x < numParticles ->
            chain_position x = Some (Z.quot x 2, Z.quot (x + 1) 2, 0)).
  { intros x Hx. unfold chain_position.
    destruct (Z.leb_spec (- 2 ^ 31) x); [ | lia].
    destruct (Z.ltb_spec (x + 1) (2 ^ 31)); [reflexivity | lia]. }
  do 3 eexists.
  split; [apply Hpos; lia | ]. split; [apply Hpos; lia | ].
  split; [apply Hpos; lia | ].
  unfold distance2. simpl.
  rewrite !Z.quot_div_nonneg by lia. split.
  - Z.div_mod_to_equations. nia.
  - intros [= H1 H2]. Z.div_mod_to_equations. lia.
Qed.

(** X15: the eight particles of [testTemperature] and [testRandomSeed] sit
    on the eight corners of a cube of side 4, no two on the same corner;
    the formula has no ninth corner, so from index 8 on it repeats the
    places of four indices before. *)
Theorem corners_hold_eight_particles (i j : Z) :
  0 <= i < 8 -> 0 <= j < 8 -> i <> j ->
  16 <= distance2 (corner_position i) (corner_position j) /\
  corner_position (i + 8) = corner_position (i + 4).
Proof.
  intros Hi Hj Hne.
  assert (Hi' : i = 0 \/ i = 1 \/ i = 2 \/ i = 3 \/
                i = 4 \/ i = 5 \/ i = 6 \/ i = 7) by lia.
  assert (Hj' : j = 0 \/ j = 1 \/ j = 2 \/ j = 3 \/
                j = 4 \/ j = 5 \/ j = 6 \/ j = 7) by lia.
  destruct Hi' as [-> | [-> | [-> | [-> | [-> | [-> | [-> | ->]]]]]]];
    destruct Hj' as [-> | [-> | [-> | [-> | [-> | [-> | [-> | ->]]]]]]];
    try contradiction; (split; [vm_compute; discriminate | reflexivity]).
Qed.


(** ** The integrator on the in-memory backend *)

Import InMemory.

Lemma in_memory_collaborators_return : step_collaborators_return.
Proof. repeat split. Qed.

Lemma bound_world_bound : bound bound_world 1%N lenient_context lenient_kernel.
Proof. repeat split; vm_compute; reflexivity. Qed.

Lemma strict_world_bound : bound strict_world 2%N strict_context strict_kernel.
Proof. repeat split; vm_compute; reflexivity. Qed.

Lemma placed_world_bound : bound placed_world 1%N lenient_context placed_kernel.
Proof. repeat split; vm_compute; reflexivity. Qed.

(** The integrator bound to the context of owner 10 refuses the context of
    owner 20, accepts its own context again, and is still bound to owner 10
    after a refused bind, three steps, the destruction of every context and
    an attempt to bind to a context that is no longer there. *)
Lemma initialize_binds_one_context_witness :
  initialize 2%N bound_world =
    (Throw (OpenMMException "This Integrator is already bound to a context"),
     bound_world) /\
  (exists w', initialize 1%N bound_world = (Ret tt, w') /\
              owner (integrator w') = Some 10%N) /\
  owner (integrator
           (run [Op_initialize 2%N; Op_step 3; Op_contexts ∅;
                 Op_initialize 1%N] bound_world)) = Some 10%N.
Proof.
  pose proof (initialize_binds_one_context bound_world 2%N strict_context 10%N
                ltac:(vm_compute; reflexivity) ltac:(vm_compute; reflexivity))
    as (Hother & _ & Hlife).
  pose proof (initialize_binds_one_context bound_world 1%N lenient_context 10%N
                ltac:(vm_compute; reflexivity) ltac:(vm_compute; reflexivity))
    as (_ & Hsame & _).
  split; [apply Hother; discriminate | ].
  split; [ | apply Hlife].
  apply (Hsame eq_refl (mkKernel false 0 0 ∅ ∅) lenient_kernel at_rest);
    reflexivity.
Defined.

(** Three steps of the bound integrator: nine calls, in three turns, and
    the clock of its context has been moved three times by the step size
    of one half. *)
Lemma step_calls_in_turns_witness :
  exists w',
    step 3 bound_world = (Ret tt, w') /\
    calls w' = calls bound_world ++ turns 3 1%N /\
    time <$> (getData <$> heap w' !! 1%N) = Some 1.5%float.
Proof.
  destruct (step_calls_in_turns bound_world 1%N lenient_context lenient_kernel
              3 bound_world_bound ltac:(lia)) as (Hreturns & _ & _ & Hheap & _).
  destruct (Hreturns in_memory_collaborators_return)
    as (w' & c' & k' & Hrun & _ & Hcalls).
  exists w'. split; [exact Hrun | ]. split; [exact Hcalls | ].
  rewrite Hrun in Hheap. simpl in Hheap. rewrite Hheap, lookup_insert_eq.
  vm_compute. reflexivity.
Defined.

(** [step(-3)] and [step(0)] leave the bound integrator and its world as
    they are. *)
Lemma step_nonpositive_witness :
  step (-3) bound_world = (Ret tt, bound_world) /\
  step 0 bound_world = (Ret tt, bound_world).
Proof.
  split; apply step_nonpositive; lia.
Defined.

(** Copy 1 holds [here] while the context still holds the positions it was
    built with: the snapshot of copy 1 shows [here], and so does the context
    afterwards. *)
Lemma getState_flushes_then_reads_witness :
  positions (getData lenient_context) = [origin; origin] /\
  getState 1 1 placed_world =
    (Ret (mkState (Some here) None),
     {| heap := <[1%N := setData lenient_context
                           (mkData here [origin; origin] 0)]>
                  (heap placed_world);
        integrator := integrator placed_world;
        calls := calls placed_world ++
                 [Call_kernel_copyToContext 1 1%N;
                  Call_Context_getState 1%N 1] |}).
Proof.
  split; [reflexivity | ].
  exact (proj1 (getState_flushes_then_reads placed_world 1%N lenient_context
                  placed_kernel 1 1 placed_world_bound)
           (mkData here [origin; origin] 0) eq_refl).
Defined.

(** Copy index 5 of an integrator of two copies: the outcome is the
    kernel's.  The strict kernel throws and the lenient one returns, for
    positions, velocities and reads alike, and what the strict kernel
    throws is what the call throws. *)
Lemma copy_index_goes_to_the_kernel_witness :
  (setPositions 5 here strict_world).1 =
    Throw (OpenMMException "rejected by the kernel") /\
  (setPositions 5 here bound_world).1 = Ret tt /\
  (setVelocities 5 here bound_world).1 = Ret tt /\
  (setVelocities 5 here strict_world).1 =
    Throw (OpenMMException "rejected by the kernel") /\
  (getState 5 1 strict_world).1 =
    Throw (OpenMMException "rejected by the kernel") /\
  (getState 5 1 bound_world).1 = Ret (mkState (Some []) None).
Proof.
  pose proof (copy_index_goes_to_the_kernel strict_world 2%N strict_context
                strict_kernel 5 1 here strict_world_bound)
    as (Hpos_strict & Hvel_strict & Hget_strict).
  pose proof (copy_index_goes_to_the_kernel bound_world 1%N lenient_context
                lenient_kernel 5 1 here bound_world_bound)
    as (Hpos & Hvel & Hget).
  rewrite Hpos_strict, Hvel_strict, Hget_strict, Hpos, Hvel, Hget.
  repeat split.
Defined.

(** The integrator has two copies and is bound on the lenient platform:
    [setPositions] with copy index 5 returns, and the kernel now holds
    positions for a copy 5 that it did not hold before; the same with copy
    index -1. *)
Lemma copy_index_out_of_range_accepted :
  numCopies (integrator bound_world) = 2 /\
  bead bound_world 5 = None /\
  (setPositions 5 here bound_world).1 = Ret tt /\
  bead (setPositions 5 here bound_world).2 5 = Some here /\
  bead bound_world (-1) = None /\
  (setPositions (-1) here bound_world).1 = Ret tt /\
  bead (setPositions (-1) here bound_world).2 (-1) = Some here.
Proof. repeat split; vm_compute; reflexivity. Qed.

(** One vector for a system of two particles: the strict kernel throws and
    leaves its data as they were, and so the call throws and changes nothing
    but the log. *)
Lemma vector_goes_to_the_kernel_witness :
  setPositions 0 [origin] strict_world =
    (Throw (OpenMMException "rejected by the kernel"),
     {| heap := heap strict_world; integrator := integrator strict_world;
        calls := calls strict_world ++ [Call_kernel_setPositions 0 [origin]] |})
  /\
  setVelocities 0 [origin] strict_world =
    (Throw (OpenMMException "rejected by the kernel"),
     {| heap := heap strict_world; integrator := integrator strict_world;
        calls := calls strict_world ++ [Call_kernel_setVelocities 0 [origin]] |}).
Proof.
  pose proof (vector_goes_to_the_kernel strict_world 2%N strict_context
                strict_kernel 0 [origin] strict_world_bound)
    as ((_ & _ & Hpos) & (_ & _ & Hvel)).
  split; [apply Hpos | apply Hvel]; reflexivity.
Defined.

(** The system has two particles and the integrator is bound on the lenient
    platform: [setPositions] with a vector of three returns, and copy 0 now
    holds three positions where it held two. *)
Lemma vector_of_wrong_length_accepted :
  numParticles (getSystem lenient_context) = 2%nat /\
  bead bound_world 0 = Some [origin; origin] /\
  (setPositions 0 (origin :: here) bound_world).1 = Ret tt /\
  bead (setPositions 0 (origin :: here) bound_world).2 0 =
    Some (origin :: here).
Proof. repeat split; vm_compute; reflexivity. Qed.

(** The constructor takes zero copies, and minus three. *)
Lemma numCopies_zero_accepted :
  numCopies (RPMDIntegrator_new 1700000000 0 300 1 0.5) = 0 /\
  numCopies (RPMDIntegrator_new 1700000000 (-3) 300 1 0.5) = -3 /\
  ~ (forall n : Z,
       1 <= numCopies (RPMDIntegrator_new 1700000000 n 300 1 0.5)).
Proof.
  split; [reflexivity | ]. split; [reflexivity | ].
  intros Hall. specialize (Hall 0). simpl in Hall. lia.
Qed.

(** An integrator constructed at clock reading 1700000000, then bound,
    stepped and given a new temperature and a new seed: the tolerance is
    still 1e-4.  A clock reading of 2^32 + 7 gives seed 7. *)
Lemma constructor_defaults_witness :
  constraintTolerance
    (integrator
       (run [Op_initialize 1%N; Op_step 2; Op_setTemperature 10;
             Op_setRandomNumberSeed 5] unbound_world)) = 1e-4%float /\
  randomNumberSeed (integrator unbound_world) = 1700000000 /\
  randomNumberSeed (RPMDIntegrator_new (2 ^ 32 + 7) 2 300 1 0.5) = 7.
Proof.
  pose proof (constructor_defaults 1700000000 2 300 1 0.5)
    as (_ & _ & Hseed & Htol & _).
  pose proof (constructor_defaults (2 ^ 32 + 7) 2 300 1 0.5)
    as (_ & Hwrap & _).
  split; [ | split].
  - apply (Htol contexts). intros tol Hin.
    repeat (apply elem_of_cons in Hin as [Hin | Hin]; [discriminate | ]).
    inversion Hin.
  - apply Hseed. lia.
  - rewrite Hwrap. reflexivity.
Defined.

(** Copy 1 of the bound integrator holds [here]; binding again to the same
    context returns, after one call to [createKernel] and one to the
    kernel's [initialize], and copy 1 is back at the origin. *)
Lemma initialize_makes_a_new_kernel_witness :
  exists w',
    initialize 1%N placed_world = (Ret tt, w') /\
    bead placed_world 1 = Some here /\
    bead w' 1 = Some [origin; origin] /\
    calls w' = calls placed_world ++
               [Call_createKernel "IntegrateRPMDStep" 1%N;
                Call_kernel_initialize].
Proof.
  eexists. split.
  - apply initialize_makes_a_new_kernel.
    exists lenient_context, (mkKernel false 0 0 ∅ ∅), lenient_kernel, at_rest.
    split; [vm_compute; reflexivity | ].
    split; [right; vm_compute; reflexivity | ].
    split; [reflexivity | ]. split; reflexivity.
  - split; [vm_compute; reflexivity | ].
    split; [vm_compute; reflexivity | reflexivity].
Defined.

(** ** More of the integrator on the in-memory backend *)

Lemma in_memory_collaborators_defined : collaborators_defined.
Proof.
  repeat split; intros; simpl;
    unfold kernel_setPositions, kernel_setVelocities, kernel_copyToContext;
    repeat match goal with
           | |- context [if ?b then _ else _] => destruct b
           end; discriminate.
Qed.

(** The first bind of the integrator, on the lenient platform. *)
Lemma initialize_establishes_bound_witness :
  exists (c c' : ContextImpl) (k : RPMDKernelData),
    heap unbound_world !! 1%N = Some c /\
    bound bound_world 1%N c' k /\
    fixed c' = fixed c /\
    view (integrator bound_world) = view (integrator unbound_world).
Proof.
  apply (initialize_establishes_bound unbound_world bound_world 1%N).
  vm_compute. reflexivity.
Defined.

(** On the platform without the kernel the first bind throws, the
    integrator is bound to owner 10 all the same, and the context of owner
    20 is refused. *)
Lemma failed_bind_still_binds_witness :
  initialize (H0 := Mismatch.backend) 1%N unbound_world =
    (Throw (OpenMMException "no such kernel"), Mismatch.refused_world) /\
  owner (integrator Mismatch.refused_world) = Some 10%N /\
  kernel (integrator Mismatch.refused_world) = None /\
  initialize (H0 := Mismatch.backend) 2%N Mismatch.refused_world =
    (Throw (OpenMMException "This Integrator is already bound to a context"),
     Mismatch.refused_world).
Proof.
  destruct (failed_bind_still_binds (H0 := Mismatch.backend) unbound_world
              1%N lenient_context (OpenMMException "no such kernel") at_rest
              ltac:(vm_compute; reflexivity) ltac:(left; reflexivity)
              eq_refl) as (Hthrows & Hkernel & Hrefused).
  split; [exact Hthrows | ]. split; [reflexivity | ].
  split; [reflexivity | ].
  apply (Hrefused 2%N strict_context); [vm_compute; reflexivity | discriminate].
Defined.

(** On the platform with a kernel of another class the first bind throws
    [bad_cast], and so does every per-copy call after it. *)
Lemma kernel_of_another_class_witness :
  initialize (H0 := Mismatch.backend) 2%N unbound_world =
    (Throw bad_cast, Mismatch.mismatched_world) /\
  setPositions (H0 := Mismatch.backend) 0 here Mismatch.mismatched_world =
    (Throw bad_cast, Mismatch.mismatched_world) /\
  getState (H0 := Mismatch.backend) 0 1 Mismatch.mismatched_world =
    (Throw bad_cast, Mismatch.mismatched_world).
Proof.
  destruct (kernel_of_another_class (H0 := Mismatch.backend) unbound_world
              2%N strict_context tt at_rest
              ltac:(vm_compute; reflexivity) ltac:(left; reflexivity)
              eq_refl) as (Hinit & Hpos & _ & Hget).
  split; [exact Hinit | ]. split; [apply Hpos | apply Hget].
Defined.

(** Three steps with the kernel of another class: two calls on the context,
    then [bad_cast]. *)
Lemma step_casts_after_the_context_calls_witness :
  (step (H0 := Mismatch.backend) 3 Mismatch.mismatched_world).1 =
    Throw bad_cast /\
  calls (step (H0 := Mismatch.backend) 3 Mismatch.mismatched_world).2 =
    calls Mismatch.mismatched_world ++
    [Call_updateContextState 2%N; Call_calcForcesAndEnergy 2%N true false].
Proof.
  rewrite (step_casts_after_the_context_calls (H0 := Mismatch.backend)
             Mismatch.mismatched_world 2%N strict_context tt at_rest at_rest 3
             ltac:(vm_compute; reflexivity) ltac:(vm_compute; reflexivity)
             ltac:(vm_compute; reflexivity) eq_refl eq_refl ltac:(lia)).
  split; reflexivity.
Defined.

(** Two steps and then three are five steps. *)
Lemma step_additive_witness :
  step (2 + 3) bound_world = (step 2 ;; step 3) bound_world.
Proof. apply step_additive; lia. Defined.

(** The bound integrator after positions for copy 1, two steps, a read of
    copy 1 and a new temperature: still bound to the context at 1. *)
Lemma data_calls_keep_bound_witness :
  exists c' k',
    bound (run [Op_setPositions 1 here; Op_step 2; Op_getState 1 3;
                Op_setTemperature 10] bound_world) 1%N c' k' /\
    fixed c' = fixed lenient_context.
Proof.
  apply (data_calls_keep_bound _ bound_world 1%N lenient_context
           lenient_kernel); [ | exact bound_world_bound].
  repeat constructor.
Defined.

(** Two steps of the integrator bound to the context at 1 leave the context
    at 2 as it was, and the context at 1 with its owner, platform and
    system. *)
Lemma calls_write_only_their_context_witness :
  heap (perform (Op_step 2) bound_world).2 !! 2%N = heap bound_world !! 2%N /\
  fixed <$> (heap (perform (Op_step 2) bound_world).2 !! 1%N) =
    fixed <$> (heap bound_world !! 1%N).
Proof.
  destruct (calls_write_only_their_context (Op_step 2) bound_world
              ltac:(discriminate)) as [Hother Hfixed].
  split; [apply Hother; vm_compute; discriminate | apply Hfixed].
Defined.

(** Binding, stepping and reading do not change what the kernel is told. *)
Lemma parameters_change_only_by_setters_witness :
  view (integrator
          (run [Op_initialize 1%N; Op_step 2; Op_getState 0 1;
                Op_initialize 2%N] unbound_world)) =
  view (integrator unbound_world).
Proof.
  apply parameters_change_only_by_setters. repeat constructor.
Defined.

(** One step of an integrator that was never bound. *)
Lemma calls_before_the_first_bind_witness :
  step 1 unbound_world = (Undefined, unbound_world) /\
  getState 0 1 unbound_world = (Undefined, unbound_world).
Proof.
  destruct (calls_before_the_first_bind 1700000000 2 300 1 0.5 contexts)
    as (_ & _ & Hget & Hstep).
  split; [apply Hstep; lia | apply Hget].
Defined.

(** The integrator bound to the context at 1 never writes to the context
    at 2. *)
Lemma other_contexts_are_never_written_witness :
  heap (run [Op_setPositions 1 here; Op_step 2; Op_getState 1 3]
          bound_world) !! 2%N = heap bound_world !! 2%N.
Proof.
  apply (other_contexts_are_never_written _ bound_world 1%N 2%N
           lenient_context lenient_kernel);
    [repeat constructor | exact bound_world_bound | discriminate].
Defined.

(** Particles 3 and 4 of a chain of eight are at distance 1, and particle 5
    is elsewhere. *)
Lemma chain_starts_on_its_constraints_witness :
  exists p q r,
    chain_position 3 = Some p /\
    chain_position (3 + 1) = Some q /\
    chain_position 5 = Some r /\
    distance2 p q = 1 /\
    (p = r -> 3 = 5).
Proof. apply (chain_starts_on_its_constraints 8 3 5); lia. Defined.

(** Particles 1 and 6 are on different corners, and a particle 9 would sit
    on particle 5. *)
Lemma corners_hold_eight_particles_witness :
  16 <= distance2 (corner_position 1) (corner_position 6) /\
  corner_position 9 = corner_position 5.
Proof. apply (corners_hold_eight_particles 1 6); lia. Defined.

(** After positions for copy 1 and two steps, a read of copy 7 of the bound
    integrator has a defined outcome. *)
Lemma bound_calls_are_defined_witness :
  exists r : outcome unit,
    (perform (Op_getState 7 1)
       (run [Op_setPositions 1 here; Op_step 2] bound_world)).1 = r /\
    r <> Undefined.
Proof.
  eexists. split; [reflexivity | ].
  apply (bound_calls_are_defined _ _ bound_world 1%N lenient_context
           lenient_kernel in_memory_collaborators_defined bound_world_bound);
    [repeat constructor | reflexivity].
Defined.

(** The [ContextImpl] at 1 is gone and the integrator's pointer dangles;
    it is bound again at address 3, to the rebuilt [ContextImpl] of the same
    [Context].  Two steps and a read later its context pointer is 3, there
    is still nothing at address 1, and the context at 2 is as it was. *)
Lemma rebind_follows_the_rebuilt_context_witness :
  (exists c2, heap rebuilt_world !! 3%N = Some c2 /\ getOwner c2 = 10%N) /\
  context (integrator
             (run [Op_step 2; Op_getState 0 1]
                (initialize 3%N rebuilt_world).2)) = Some 3%N /\
  heap (run [Op_step 2; Op_getState 0 1] (initialize 3%N rebuilt_world).2)
    !! 1%N = None /\
  heap (run [Op_step 2; Op_getState 0 1] (initialize 3%N rebuilt_world).2)
    !! 2%N = Some strict_context.
Proof.
  destruct (rebind_follows_the_rebuilt_context [Op_step 2; Op_getState 0 1]
              rebuilt_world (initialize 3%N rebuilt_world).2 3%N 10%N
              ltac:(vm_compute; reflexivity) ltac:(vm_compute; reflexivity)
              ltac:(repeat constructor)) as (Howner & Hctx & Hframe).
  split; [exact Howner | ]. split; [exact Hctx | ].
  split; rewrite Hframe by discriminate; vm_compute; reflexivity.
Defined.
